(** * Runtime log parser: a shallow embedding of [parser.py]

    The development follows the source file top to bottom.

    - [Py] gives the Python built-ins the parser calls ([str.strip],
      [str.split], [str.join], [str.startswith], [str.upper], indexing,
      [list.index], [str.ljust]) together with the two exceptions that can
      occur in the modelled code.
    - [Datetime] gives [datetime.min], [datetime.strptime] and
      [datetime.strftime] for the two format strings of the source.
    - [Parser] is the source proper: [LOG_LEVELS], [parse_log_line],
      [RuntimeLogLine], [read_log_files] and the printing loop of
      [__main__].

    Text is modelled by [string]: a character is a code point below 256.
    On these code points [str.isspace] holds for 9-13, 28-32, 133 and 160,
    and the only decimal digits are ["0"]..["9"].  [str.upper] is given on
    the letters [a-z]; the other code points are left as they are, which
    does not change whether the upper-cased text is one of the ASCII
    tokens of [LOG_LEVELS]. *)

From Stdlib Require Import ZArith List String Ascii Bool Lia.
From Stdlib Require Import Sorting.Sorted Sorting.Permutation.
Import ListNotations.

Open Scope string_scope.
Open Scope Z_scope.

(* ================================================================== *)
(** ** Python built-ins *)

Module Py.

(** The exceptions raised by the modelled code. *)
Inductive exn : Set := ValueError | IndexError.

Inductive result (A : Type) : Type :=
| Ok (a : A)
| Raise (e : exn).
Arguments Ok {A} a.
Arguments Raise {A} e.

Definition bind {A B} (r : result A) (k : A -> result B) : result B :=
  match r with
  | Ok a => k a
  | Raise e => Raise e
  end.

(** [try: body except ValueError: handler] *)
Definition try_except_ValueError {A} (body : result A) (handler : A) : result A :=
  match body with
  | Ok a => Ok a
  | Raise ValueError => Ok handler
  | Raise e => Raise e
  end.

(** [ord(c)] *)
Definition ord (c : ascii) : Z := Z.of_N (N_of_ascii c).

Definition in_range (lo hi : Z) (c : ascii) : bool :=
  (lo <=? ord c) && (ord c <=? hi).

(** [c.isspace()] on code points below 256. *)
Definition isspace (c : ascii) : bool :=
  in_range 9 13 c || in_range 28 32 c || (ord c =? 133) || (ord c =? 160).

(** [c.isdigit()] restricted to decimal digits, which below 256 are 0-9. *)
Definition isdigit (c : ascii) : bool := in_range 48 57 c.

(** Truth value of a [str]: non-empty. *)
Definition truthy (s : string) : bool :=
  match s with
  | EmptyString => false
  | String _ _ => true
  end.

(** [s.lstrip()] *)
Fixpoint lstrip (s : string) : string :=
  match s with
  | EmptyString => EmptyString
  | String c s' => if isspace c then lstrip s' else s
  end.

(** [s.rstrip()] *)
Fixpoint rstrip (s : string) : string :=
  match s with
  | EmptyString => EmptyString
  | String c s' =>
      match rstrip s' with
      | EmptyString => if isspace c then EmptyString else String c EmptyString
      | r => String c r
      end
  end.

(** [s.strip()] *)
Definition strip (s : string) : string := rstrip (lstrip s).

(** [s[i]] for a non-negative index. *)
Definition getitem (s : string) (i : nat) : result ascii :=
  match String.get i s with
  | Some c => Ok c
  | None => Raise IndexError
  end.

(** [l[i]] for a non-negative index into a list. *)
Definition list_getitem {A} (l : list A) (i : nat) : result A :=
  match nth_error l i with
  | Some x => Ok x
  | None => Raise IndexError
  end.

Definition cons_head (c : ascii) (parts : list string) : list string :=
  match parts with
  | p :: ps => String c p :: ps
  | [] => [String c EmptyString]
  end.

(** [s.split(sep, maxsplit)] for a one-character separator; [None] is the
    default [maxsplit=-1] (no limit). *)
Fixpoint split (sep : ascii) (maxsplit : option nat) (s : string) : list string :=
  match s with
  | EmptyString => [EmptyString]
  | String c s' =>
      match maxsplit with
      | Some O => [s]
      | _ =>
          if Ascii.eqb c sep
          then EmptyString :: split sep (option_map Nat.pred maxsplit) s'
          else cons_head c (split sep maxsplit s')
      end
  end.

(** [sep.join(parts)] *)
Fixpoint join (sep : string) (parts : list string) : string :=
  match parts with
  | [] => EmptyString
  | [p] => p
  | p :: ps => p ++ sep ++ join sep ps
  end.

(** [s.startswith(p)] *)
Definition startswith (s p : string) : bool := String.prefix p s.

(** [s.endswith(p)] *)
Definition endswith (s p : string) : bool :=
  let n := String.length s in
  let m := String.length p in
  (m <=? n)%nat && String.eqb (String.substring (n - m) m s) p.

Definition upper_char (c : ascii) : ascii :=
  if in_range 97 122 c then ascii_of_N (N_of_ascii c - 32) else c.

(** [s.upper()] *)
Fixpoint upper (s : string) : string :=
  match s with
  | EmptyString => EmptyString
  | String c s' => String (upper_char c) (upper s')
  end.

(** [l.index(x)] on a list of strings: first position, else [ValueError]. *)
Fixpoint index (l : list string) (x : string) : result Z :=
  match l with
  | [] => Raise ValueError
  | y :: l' =>
      if String.eqb y x then Ok 0
      else bind (index l' x) (fun i => Ok (i + 1))
  end.

Fixpoint spaces (n : nat) : string :=
  match n with
  | O => EmptyString
  | S n' => String " " (spaces n')
  end.

(** [s.ljust(width)] *)
Definition ljust (s : string) (width : nat) : string :=
  s ++ spaces (width - String.length s).

Definition digit_val (c : ascii) : Z := ord c - 48.

Fixpoint int_digits (acc : Z) (s : string) : result Z :=
  match s with
  | EmptyString => Ok acc
  | String c s' =>
      if isdigit c then int_digits (10 * acc + digit_val c) s'
      else Raise ValueError
  end.

(** [int(s)] on unsigned decimal text, surrounding whitespace allowed. *)
Definition int (s : string) : result Z :=
  match strip s with
  | EmptyString => Raise ValueError
  | t => int_digits 0 t
  end.

Definition digit_char (d : Z) : ascii := ascii_of_N (Z.to_N (48 + d mod 10)).

Fixpoint zdigits (w : nat) (n : Z) (acc : string) : string :=
  match w with
  | O => acc
  | S w' => zdigits w' (n / 10) (String (digit_char n) acc)
  end.

(** A non-negative integer below [10^w] printed with exactly [w] digits,
    as [%02d] and [%04d] do. *)
Definition zfill (w : nat) (n : Z) : string := zdigits w n EmptyString.

(** The newline character. *)
Definition nl : string := String "010"%char EmptyString.

End Py.

Notation "x <- r ;; k" := (Py.bind r (fun x => k))
  (at level 61, r at next level, right associativity).

(* ================================================================== *)
(** ** [datetime]: the part of the standard library the parser calls

    [strptime] follows CPython's [_strptime.py]: the format is compiled
    into a regular expression, the expression is matched at the start of
    the text, text left over is an error, and the groups are converted
    with [int] and checked by the [datetime] constructor. *)

Module Datetime.
Import Py.

Record datetime : Set := mkdatetime {
  year : Z; month : Z; day : Z;
  hour : Z; minute : Z; second : Z; microsecond : Z
}.

(** [datetime.min] *)
Definition min : datetime := mkdatetime 1 1 1 0 0 0 0.

Definition isleap (y : Z) : bool :=
  ((y mod 4 =? 0) && negb (y mod 100 =? 0)) || (y mod 400 =? 0).

Definition days_in_month (y m : Z) : Z :=
  if m =? 2 then (if isleap y then 29 else 28)
  else if (m =? 4) || (m =? 6) || (m =? 9) || (m =? 11) then 30
  else 31.

Definition between (lo x hi : Z) : bool := (lo <=? x) && (x <=? hi).

(** [datetime(year, month, day, hour, minute, second, microsecond)]:
    a field out of range is a [ValueError]. *)
Definition new (y m d H M S f : Z) : result datetime :=
  if between 1 y 9999 && between 1 m 12 && between 1 d (days_in_month y m)
     && between 0 H 23 && between 0 M 59 && between 0 S 59
     && between 0 f 999999
  then Ok (mkdatetime y m d H M S f)
  else Raise ValueError.

(** *** The regular expressions of [_strptime.TimeRE]

    A directive is a named group of ordered alternatives, every
    alternative a sequence of character classes; the only repetitions
    are [\s+] and [[0-9]{1,6}]. *)

Definition cls : Type := ascii -> bool.
Definition ch (c : ascii) : cls := Ascii.eqb c.
Definition rng (a b : ascii) : cls := in_range (ord a) (ord b).
Definition digit : cls := isdigit.       (* \d *)
Definition space : cls := isspace.       (* \s *)

Inductive item : Type :=
| Group (name : ascii) (alts : list (list cls))
| Lit (c : ascii)
| Rep (name : option ascii) (p : cls) (lo : nat) (hi : option nat).

(** The entries of the directive table used by the parser's format. *)
Definition directive (d : ascii) : result item :=
  if Ascii.eqb d "d" then
    (* 3[0-1]|[1-2]\d|0[1-9]|[1-9]| [1-9] *)
    Ok (Group "d" [[ch "3"; rng "0" "1"]; [rng "1" "2"; digit];
                   [ch "0"; rng "1" "9"]; [rng "1" "9"]; [ch " "; rng "1" "9"]])
  else if Ascii.eqb d "f" then
    (* [0-9]{1,6} *)
    Ok (Rep (Some "f"%char) (rng "0" "9") 1 (Some 6%nat))
  else if Ascii.eqb d "H" then
    (* 2[0-3]|[0-1]\d|\d *)
    Ok (Group "H" [[ch "2"; rng "0" "3"]; [rng "0" "1"; digit]; [digit]])
  else if Ascii.eqb d "m" then
    (* 1[0-2]|0[1-9]|[1-9] *)
    Ok (Group "m" [[ch "1"; rng "0" "2"]; [ch "0"; rng "1" "9"]; [rng "1" "9"]])
  else if Ascii.eqb d "M" then
    (* [0-5]\d|\d *)
    Ok (Group "M" [[rng "0" "5"; digit]; [digit]])
  else if Ascii.eqb d "S" then
    (* 6[0-1]|[0-5]\d|\d *)
    Ok (Group "S" [[ch "6"; rng "0" "1"]; [rng "0" "5"; digit]; [digit]])
  else if Ascii.eqb d "Y" then
    (* \d\d\d\d *)
    Ok (Group "Y" [[digit; digit; digit; digit]])
  else Raise ValueError.

(** [TimeRE.pattern]: a directive becomes its group, a run of whitespace
    becomes [\s+], any other character stands for itself. *)
Fixpoint pattern (format : string) : result (list item) :=
  match format with
  | EmptyString => Ok []
  | String c rest =>
      if Ascii.eqb c "%" then
        match rest with
        | EmptyString => Raise ValueError
        | String d rest' =>
            it <- directive d;; p <- pattern rest';; Ok (it :: p)
        end
      else if isspace c then
        match rest with
        | String c' _ =>
            if isspace c' then pattern rest
            else p <- pattern rest;; Ok (Rep None space 1 None :: p)
        | EmptyString => p <- pattern rest;; Ok (Rep None space 1 None :: p)
        end
      else p <- pattern rest;; Ok (Lit c :: p)
  end.

(** *** Matching, by backtracking in the order of the alternatives *)

(** A sequence of classes against the start of [s]: the text matched and
    the text left. *)
Fixpoint match_seq (cs : list cls) (s : string) : option (string * string) :=
  match cs with
  | [] => Some (EmptyString, s)
  | p :: cs' =>
      match s with
      | EmptyString => None
      | String c s' =>
          if p c then
            match match_seq cs' s' with
            | Some (m, r) => Some (String c m, r)
            | None => None
            end
          else None
      end
  end.

Fixpoint first_alt {A} (f : list cls -> option A) (alts : list (list cls)) : option A :=
  match alts with
  | [] => None
  | a :: alts' =>
      match f a with
      | Some x => Some x
      | None => first_alt f alts'
      end
  end.

Definition may_take (hi : option nat) : bool :=
  match hi with
  | Some O => false
  | _ => true
  end.

(** Greedy repetition of a class, between [lo] and [hi] times; [k] is the
    rest of the expression, given the text matched and the text left. *)
Fixpoint repeat_cls {A} (p : cls) (lo : nat) (hi : option nat)
         (k : string -> string -> option A) (s : string) : option A :=
  let stop := match lo with O => k EmptyString s | S _ => None end in
  match s with
  | EmptyString => stop
  | String c s' =>
      if p c && may_take hi then
        match repeat_cls p (Nat.pred lo) (option_map Nat.pred hi)
                         (fun m r => k (String c m) r) s' with
        | Some x => Some x
        | None => stop
        end
      else stop
  end.

Definition captures : Type := list (ascii * string).

Definition capture (name : option ascii) (m : string) (gs : captures) : captures :=
  match name with
  | Some n => (n, m) :: gs
  | None => gs
  end.

(** [format_regex.match(data_string)]: the groups and the text left after
    the match ([data_string[found.end():]]). *)
Fixpoint re_match (re : list item) (s : string) : option (captures * string) :=
  match re with
  | [] => Some ([], s)
  | Lit c :: re' =>
      match s with
      | EmptyString => None
      | String c' s' => if Ascii.eqb c' c then re_match re' s' else None
      end
  | Group name alts :: re' =>
      first_alt
        (fun a =>
           match match_seq a s with
           | Some (m, r) =>
               match re_match re' r with
               | Some (gs, e) => Some ((name, m) :: gs, e)
               | None => None
               end
           | None => None
           end) alts
  | Rep name p lo hi :: re' =>
      repeat_cls p lo hi
        (fun m r =>
           match re_match re' r with
           | Some (gs, e) => Some (capture name m gs, e)
           | None => None
           end) s
  end.

(** [found_dict[key]] with the default of [_strptime] when the group is
    absent. *)
Fixpoint group_int (gs : captures) (key : ascii) (default : Z) : result Z :=
  match gs with
  | [] => Ok default
  | (n, m) :: gs' => if Ascii.eqb n key then int m else group_int gs' key default
  end.

Fixpoint zeros (n : nat) : string :=
  match n with
  | O => EmptyString
  | S n' => String "0" (zeros n')
  end.

Fixpoint group_fraction (gs : captures) : result Z :=
  match gs with
  | [] => Ok 0
  | (n, m) :: gs' =>
      if Ascii.eqb n "f" then int (m ++ zeros (6 - String.length m))
      else group_fraction gs'
  end.

(** [datetime.strptime(data_string, format)] for formats over the
    directives above that contain [%Y]. *)
Definition strptime (data_string format : string) : result datetime :=
  re <- pattern format;;
  match re_match re data_string with
  | None => Raise ValueError            (* does not match format *)
  | Some (found, rest) =>
      if truthy rest then Raise ValueError   (* unconverted data remains *)
      else
        y <- group_int found "Y" 1900;;
        m <- group_int found "m" 1;;
        d <- group_int found "d" 1;;
        H <- group_int found "H" 0;;
        M <- group_int found "M" 0;;
        S <- group_int found "S" 0;;
        f <- group_fraction found;;
        new y m d H M S f
  end.

(** The conversions of the format [__main__] prints with.  [%Y] is the
    year in four digits, as the library documents it; for years below
    1000 the padding is the platform's. *)
Definition strftime_field (t : datetime) (d : ascii) : string :=
  if Ascii.eqb d "d" then zfill 2 (day t)
  else if Ascii.eqb d "m" then zfill 2 (month t)
  else if Ascii.eqb d "Y" then zfill 4 (year t)
  else if Ascii.eqb d "H" then zfill 2 (hour t)
  else if Ascii.eqb d "M" then zfill 2 (minute t)
  else if Ascii.eqb d "S" then zfill 2 (second t)
  else String "%" (String d EmptyString).

(** [t.strftime(format)] *)
Fixpoint strftime (t : datetime) (format : string) : string :=
  match format with
  | EmptyString => EmptyString
  | String c rest =>
      if Ascii.eqb c "%" then
        match rest with
        | EmptyString => String c EmptyString
        | String d rest' => strftime_field t d ++ strftime t rest'
        end
      else String c (strftime t rest)
  end.

(** [a < b], the order [list.sort] uses on the timestamp keys. *)
Definition ltb (a b : datetime) : bool :=
  let key t := [year t; month t; day t; hour t; minute t; second t; microsecond t] in
  (fix lex (x y : list Z) : bool :=
     match x, y with
     | u :: x', v :: y' => (u <? v) || ((u =? v) && lex x' y')
     | _, _ => false
     end) (key a) (key b).

End Datetime.

(* ================================================================== *)
(** ** [parser.py] *)

Module Parser.
Import Py.
Export Datetime.

Definition LOG_LEVELS : list string :=
  ["ERROR"; "WARNING"; "INFO"; "DEBUG"; "VERBOSE1"; "VERBOSE2"].

(** The value returned by the [except ValueError] branch. *)
Definition sentinel : datetime * Z * string :=
  (Datetime.min, -1, "Invalid log line format").

(** [RuntimeLogLine.parse_log_line] *)
Definition parse_log_line (log_line : string) : result (datetime * Z * string) :=
  try_except_ValueError
    (match split ";" (Some 5%nat) log_line with
     | [timestamp_str; level_str; module; object; message; unused] =>
         message <-
           (if startswith message "Error invoking "
               || startswith message "Error executing "
               || startswith message "Error running "
            then list_getitem (split ":" None message) 0
            else Ok message);;
         timestamp <- strptime timestamp_str "%d-%m-%Y %H:%M:%S.%f";;
         level <- index LOG_LEVELS (upper level_str);;
         Ok (timestamp, level, message)
     | _ => Raise ValueError      (* unpacking a list that has not 6 items *)
     end)
    sentinel.

Record RuntimeLogLine : Set := mkRuntimeLogLine {
  timestamp : datetime;
  level : Z;
  message : string
}.

(** [RuntimeLogLine.__init__] *)
Definition RuntimeLogLine_init (log_line : string) : result RuntimeLogLine :=
  r <- parse_log_line log_line;;
  let '(t, l, m) := r in
  Ok (mkRuntimeLogLine t l m).

(** The test that opens a new log entry: [line.strip() and line[2] == '-'
    and line[5] == '-'], evaluated left to right. *)
Definition starts_entry (line : string) : result bool :=
  if truthy (strip line) then
    c2 <- getitem line 2;;
    if Ascii.eqb c2 "-" then
      c5 <- getitem line 5;;
      Ok (Ascii.eqb c5 "-")
    else Ok false
  else Ok false.

Definition nonempty {A} (l : list A) : bool :=
  match l with
  | [] => false
  | _ :: _ => true
  end.

(** The loop state: [log_contents] and [log_entry]. *)
Definition state : Type := (list RuntimeLogLine * list string)%type.

(** [log_contents.append(RuntimeLogLine(' '.join(log_entry).strip()))] *)
Definition flush (log_contents : list RuntimeLogLine) (log_entry : list string)
  : result (list RuntimeLogLine) :=
  e <- RuntimeLogLine_init (strip (join " " log_entry));;
  Ok (log_contents ++ [e])%list.

(** One turn of [for line in file]. *)
Definition line_step (st : state) (line : string) : result state :=
  let '(log_contents, log_entry) := st in
  b <- starts_entry line;;
  st' <-
    (if b then
       if nonempty log_entry then
         log_contents' <- flush log_contents log_entry;;
         Ok (log_contents', [])
       else Ok (log_contents, log_entry)
     else Ok (log_contents, log_entry));;
  let '(log_contents, log_entry) := st' in
  Ok (log_contents, (log_entry ++ [strip line])%list).

Fixpoint for_lines (st : state) (file : list string) : result state :=
  match file with
  | [] => Ok st
  | line :: file' => st' <- line_step st line;; for_lines st' file'
  end.

(** The body of [with open(...) as file]; [file] is the sequence of lines
    the file iterator yields. *)
Definition read_file (log_contents : list RuntimeLogLine) (file : list string)
  : result (list RuntimeLogLine) :=
  st <- for_lines (log_contents, []) file;;
  let '(log_contents, log_entry) := st in
  if nonempty log_entry then flush log_contents log_entry
  else Ok log_contents.

(** A folder: the names [os.listdir] yields, each with the lines of the
    file. *)
Definition folder : Type := list (string * list string).

Fixpoint for_filenames (log_contents : list RuntimeLogLine) (dir : folder)
  : result (list RuntimeLogLine) :=
  match dir with
  | [] => Ok log_contents
  | (filename, file) :: dir' =>
      if endswith filename ".log" then
        log_contents' <- read_file log_contents file;;
        for_filenames log_contents' dir'
      else for_filenames log_contents dir'
  end.

(** [read_log_files] *)
Definition read_log_files (logs_folder : folder) : result (list RuntimeLogLine) :=
  for_filenames [] logs_folder.

(** [log_contents.sort(key=lambda x: x.timestamp)]: a stable sort. *)
Fixpoint insert_by_timestamp (x : RuntimeLogLine) (l : list RuntimeLogLine)
  : list RuntimeLogLine :=
  match l with
  | [] => [x]
  | y :: l' =>
      if Datetime.ltb (timestamp x) (timestamp y) then x :: l
      else y :: insert_by_timestamp x l'
  end.

Definition sort_by_timestamp (l : list RuntimeLogLine) : list RuntimeLogLine :=
  fold_left (fun acc x => insert_by_timestamp x acc) l [].

(** The body of [for content in log_contents]: the line printed, if any. *)
Definition print_content (content : RuntimeLogLine) : result (option string) :=
  warning <- index LOG_LEVELS "WARNING";;
  if (level content <=? warning) && (level content >=? 0) then
    name <- list_getitem LOG_LEVELS (Z.to_nat (level content));;
    Ok (Some (strftime (timestamp content) "%d-%m-%Y %H:%M:%S"
              ++ "; " ++ ljust name 10 ++ "; " ++ message content))
  else Ok None.

Fixpoint for_contents (log_contents : list RuntimeLogLine) : result (list string) :=
  match log_contents with
  | [] => Ok []
  | content :: rest =>
      o <- print_content content;;
      out <- for_contents rest;;
      Ok (match o with Some l => l :: out | None => out end)
  end.

(** [__main__]: the lines printed for the folder [Logs]. *)
Definition main (Logs : folder) : result (list string) :=
  log_contents <- read_log_files Logs;;
  for_contents (sort_by_timestamp log_contents).

End Parser.

(* ================================================================== *)
(** ** Vocabulary of the specification *)

Module Spec.
Import Py Parser.

(** The text before the first separator, or all of it. *)
Fixpoint before (sep : ascii) (s : string) : string :=
  match s with
  | EmptyString => EmptyString
  | String c s' => if Ascii.eqb c sep then EmptyString else String c (before sep s')
  end.

(** No separator occurs in the text. *)
Fixpoint sepfree (sep : ascii) (s : string) : bool :=
  match s with
  | EmptyString => true
  | String c s' => negb (Ascii.eqb c sep) && sepfree sep s'
  end.

(** Occurrences of the separator. *)
Fixpoint count (sep : ascii) (s : string) : nat :=
  match s with
  | EmptyString => O
  | String c s' => if Ascii.eqb c sep then S (count sep s') else count sep s'
  end.

(** The computation raises nothing but [ValueError]. *)
Definition only_ValueError {A} (r : result A) : Prop :=
  forall e, r = Raise e -> e = ValueError.

(** The parts [parse_log_line] unpacks. *)
Definition fields (log_line : string) : list string :=
  split ";" (Some 5%nat) log_line.

(** The timestamp field read with the format of the parser. *)
Definition read_timestamp (timestamp_str : string) : result datetime :=
  strptime timestamp_str "%d-%m-%Y %H:%M:%S.%f".

(** The level token looked up in the vocabulary. *)
Definition read_level (level_str : string) : result Z :=
  index LOG_LEVELS (upper level_str).

(** The message begins with one of the three protected prefixes. *)
Definition protected (message : string) : bool :=
  startswith message "Error invoking "
  || startswith message "Error executing "
  || startswith message "Error running ".

(** The message a successful parse returns. *)
Definition normalized (message : string) : string :=
  if protected message then before ":" message else message.

(** Every character of the text satisfies [p]. *)
Fixpoint all_chars (p : ascii -> bool) (s : string) : bool :=
  match s with
  | EmptyString => true
  | String c s' => p c && all_chars p s'
  end.

(** *** Lines and logical entries *)

(** The line opens a new logical entry. *)
Definition is_boundary (line : string) : bool :=
  match starts_entry line with
  | Ok true => true
  | _ => false
  end.

(** The logical entries of a file, as groups of physical lines: a line
    belongs to the group of the line after it unless that line is a
    boundary line. *)
Fixpoint chunks (lines : list string) : list (list string) :=
  match lines with
  | [] => []
  | line :: rest =>
      match chunks rest with
      | [] => [[line]]
      | g :: gs =>
          match g with
          | next :: _ => if is_boundary next then [line] :: g :: gs
                         else (line :: g) :: gs
          | [] => [line] :: gs
          end
      end
  end.

(** The groups of the lines still to come when the group [cur] is open. *)
Definition chunks_open (cur lines : list string) : list (list string) :=
  match chunks lines with
  | [] => [cur]
  | g :: gs =>
      match g with
      | next :: _ => if is_boundary next then cur :: g :: gs
                     else (cur ++ g)%list :: gs
      | [] => cur :: gs
      end
  end.

(** The entry a failed parse leaves in the collection. *)
Definition invalid_entry : RuntimeLogLine :=
  mkRuntimeLogLine Datetime.min (-1) "Invalid log line format".

(** The raw text of a group as the specification words it: the lines
    stripped one by one and joined with single spaces. *)
Definition claimed_raw_text (group : list string) : string :=
  join " " (map strip group).

(** The raw text of a group as the reader builds it: the joined text is
    stripped once more. *)
Definition raw_text (group : list string) : string :=
  strip (join " " (map strip group)).

(** *** The console line *)

(** The console line as the specification words it: no character but
    the semicolons between the three parts. *)
Definition claimed_console_line (content : RuntimeLogLine) : string :=
  strftime (timestamp content) "%d-%m-%Y %H:%M:%S"
  ++ ";" ++ ljust (nth (Z.to_nat (level content)) LOG_LEVELS "") 10
  ++ ";" ++ message content.

(** *** Timestamp fields *)




(** Decimal digits, between [lo] and [hi] of them. *)
Definition digits (lo hi : nat) (s : string) : Prop :=
  all_chars isdigit s = true /\ (lo <= String.length s <= hi)%nat.

(** A day field: one or two digits, or a space and a digit. *)
Definition day_field (d : string) : Prop :=
  digits 1 2 d \/ exists c, d = String " " (String c EmptyString) /\ isdigit c = true.

(** A non-empty run of whitespace. *)
Definition blank (w : string) : Prop :=
  all_chars isspace w = true /\ w <> EmptyString.

(** The value of decimal text; a character that is no digit counts 0. *)
Fixpoint value_from (acc : Z) (s : string) : Z :=
  match s with
  | EmptyString => acc
  | String c s' =>
      value_from (if isdigit c then 10 * acc + digit_val c else acc) s'
  end.

Definition value (s : string) : Z := value_from 0 s.

(** The microseconds a fraction of 1 to 6 digits stands for. *)
Definition micros (f : string) : Z :=
  value f * 10 ^ (6 - Z.of_nat (String.length f)).

(** The expression the parser's format compiles to. *)
Definition format_regex : list item :=
  [ Group "d" [[ch "3"; rng "0" "1"]; [rng "1" "2"; digit];
               [ch "0"; rng "1" "9"]; [rng "1" "9"]; [ch " "; rng "1" "9"]];
    Lit "-";
    Group "m" [[ch "1"; rng "0" "2"]; [ch "0"; rng "1" "9"]; [rng "1" "9"]];
    Lit "-";
    Group "Y" [[digit; digit; digit; digit]];
    Rep None space 1 None;
    Group "H" [[ch "2"; rng "0" "3"]; [rng "0" "1"; digit]; [digit]];
    Lit ":";
    Group "M" [[rng "0" "5"; digit]; [digit]];
    Lit ":";
    Group "S" [[ch "6"; rng "0" "1"]; [rng "0" "5"; digit]; [digit]];
    Lit ".";
    Rep (Some "f"%char) (rng "0" "9") 1 (Some 6%nat) ].

(** The timestamp fields [strptime] reads with the parser's format, and
    the point in time each stands for: day, month, hour, minute and
    second of one or two digits, a year of four digits, whitespace
    between date and time, a fraction of one to six digits, and values
    that make a date and a time of day. *)
Definition lenient_timestamp (ts : string) (t : datetime) : Prop :=
  exists d m y w H M S f,
    ts = d ++ "-" ++ m ++ "-" ++ y ++ w ++ H ++ ":" ++ M ++ ":" ++ S ++ "." ++ f
    /\ day_field d /\ digits 1 2 m /\ digits 4 4 y /\ blank w
    /\ digits 1 2 H /\ digits 1 2 M /\ digits 1 2 S /\ digits 1 6 f
    /\ new (value y) (value m) (value d) (value H) (value M) (value S) (micros f)
       = Ok t.

(** *** The collection and the printing loop *)

(** The entry passes the severity filter of [__main__]. *)
Definition shown (content : RuntimeLogLine) : bool :=
  (0 <=? level content) && (level content <=? 1).

(** The line printed for an entry that passes the filter. *)
Definition console_text (content : RuntimeLogLine) : string :=
  strftime (timestamp content) "%d-%m-%Y %H:%M:%S"
  ++ "; " ++ ljust (nth (Z.to_nat (level content)) LOG_LEVELS "") 10
  ++ "; " ++ message content.

(** Lexicographic [<] on lists of integers. *)
Fixpoint lexb (x y : list Z) : bool :=
  match x, y with
  | u :: x', v :: y' => (u <? v) || ((u =? v) && lexb x' y')
  | _, _ => false
  end.

(** The fields of a point in time, most significant first. *)
Definition time_key (t : datetime) : list Z :=
  [year t; month t; day t; hour t; minute t; second t; microsecond t].

(** The entry [a] is not later than the entry [b]. *)
Definition not_after (a b : RuntimeLogLine) : Prop :=
  Datetime.ltb (timestamp b) (timestamp a) = false.

(** The entry has the timestamp [t]: neither is before the other. *)
Definition same_time (t : datetime) (e : RuntimeLogLine) : bool :=
  negb (Datetime.ltb t (timestamp e)) && negb (Datetime.ltb (timestamp e) t).

(** The fields of the point in time are those of a date and a time of
    day the [datetime] constructor accepts. *)
Definition valid_time (t : datetime) : Prop :=
  new (year t) (month t) (day t) (hour t) (minute t) (second t) (microsecond t)
  = Ok t.

End Spec.

Import Py Parser Spec.


(* ================================================================== *)
(** ** Facts about the built-ins *)

Section Split.

Variable sep : ascii.


Lemma split_not_nil (m : option nat) (s : string) : split sep m s <> [].
Proof.
  revert m; induction s as [|c s IH]; intros m; simpl; [discriminate|].
  destruct m as [[|n]|]; try discriminate;
    (destruct (Ascii.eqb c sep); [discriminate|]);
    match goal with |- cons_head _ ?l <> _ => destruct l; discriminate end.
Qed.

Lemma split_head (s : string) :
  exists ps, split sep None s = before sep s :: ps.
Proof.
  induction s as [|c s [ps IH]]; simpl; [now exists []|].
  destruct (Ascii.eqb c sep); [eauto|].
  rewrite IH; simpl; eauto.
Qed.

Lemma join_cons (p : string) (ps : list string) :
  ps <> [] -> join (String sep "") (p :: ps) = p ++ String sep (join (String sep "") ps).
Proof. destruct ps; [congruence|reflexivity]. Qed.

(** Joining the parts with the separator gives the text back: nothing
    is lost or altered by a split, whatever the limit. *)
Lemma join_split (m : option nat) (s : string) :
  join (String sep "") (split sep m s) = s.
Proof.
  revert m; induction s as [|c s IH]; intros m; [reflexivity|].
  assert (step : forall m',
    join (String sep "")
      (if Ascii.eqb c sep
       then EmptyString :: split sep (option_map Nat.pred m') s
       else cons_head c (split sep m' s)) = String c s).
  { intros m'. destruct (Ascii.eqb_spec c sep) as [->|ne].
    - rewrite join_cons by apply split_not_nil. simpl. now rewrite IH.
    - specialize (IH m'). destruct (split sep m' s) as [|p ps] eqn:E.
      + now apply split_not_nil in E.
      + destruct ps; simpl in *; now rewrite IH. }
  simpl. destruct m as [[|n]|]; [reflexivity|apply step|apply (step None)].
Qed.

(** A field without separator, followed by a separator, is split off
    as long as a split is left. *)
Lemma split_field (n : nat) (f rest : string) :
  sepfree sep f = true ->
  split sep (Some (S n)) (f ++ String sep rest) = f :: split sep (Some n) rest.
Proof.
  induction f as [|c f IH]; simpl; intros H.
  - now rewrite Ascii.eqb_refl.
  - apply andb_prop in H as [Hc Hf]. apply negb_true_iff in Hc.
    rewrite Hc, (IH Hf). reflexivity.
Qed.

Lemma split_zero (s : string) : split sep (Some O) s = [s].
Proof. now destruct s. Qed.

Lemma split_length (n : nat) (s : string) :
  List.length (split sep (Some n) s) = S (Nat.min n (count sep s)).
Proof.
  revert n; induction s as [|c s IH]; intros n; simpl.
  - now rewrite Nat.min_0_r.
  - destruct n as [|n]; [reflexivity|].
    destruct (Ascii.eqb c sep); simpl.
    + now rewrite IH.
    + specialize (IH (S n)). destruct (split sep (Some (S n)) s); simpl in *; lia.
Qed.

End Split.

(* ================================================================== *)
(** ** Which exceptions the built-ins raise *)

Section Raises.

Lemma only_ValueError_Ok {A} (a : A) : only_ValueError (Ok a).
Proof. intros e H; discriminate. Qed.

Lemma only_ValueError_Raise {A} : only_ValueError (@Raise A ValueError).
Proof. intros e H; now inversion H. Qed.

Lemma only_ValueError_bind {A B} (r : result A) (k : A -> result B) :
  only_ValueError r -> (forall a, only_ValueError (k a)) ->
  only_ValueError (bind r k).
Proof.
  intros Hr Hk e. destruct r as [a|e']; simpl; [apply Hk|].
  intros H; inversion H; subst. now apply Hr.
Qed.

Lemma int_digits_raises (s : string) (acc : Z) : only_ValueError (int_digits acc s).
Proof.
  revert acc; induction s as [|c s IH]; intros acc; simpl.
  - apply only_ValueError_Ok.
  - destruct (isdigit c); [apply IH|apply only_ValueError_Raise].
Qed.

Lemma int_raises (s : string) : only_ValueError (int s).
Proof.
  unfold int. destruct (strip s);
    [apply only_ValueError_Raise|apply int_digits_raises].
Qed.

Lemma index_raises (l : list string) (x : string) : only_ValueError (index l x).
Proof.
  induction l as [|y l IH]; simpl; [apply only_ValueError_Raise|].
  destruct (String.eqb y x); [apply only_ValueError_Ok|].
  apply only_ValueError_bind; [exact IH|intros; apply only_ValueError_Ok].
Qed.

Lemma group_int_raises (gs : captures) (key : ascii) (d : Z) :
  only_ValueError (group_int gs key d).
Proof.
  induction gs as [|[n m] gs IH]; simpl; [apply only_ValueError_Ok|].
  destruct (Ascii.eqb n key); [apply int_raises|exact IH].
Qed.

Lemma group_fraction_raises (gs : captures) : only_ValueError (group_fraction gs).
Proof.
  induction gs as [|[n m] gs IH]; simpl; [apply only_ValueError_Ok|].
  destruct (Ascii.eqb n "f"); [apply int_raises|exact IH].
Qed.

Lemma new_raises (y m d H M S f : Z) : only_ValueError (new y m d H M S f).
Proof.
  unfold new.
  match goal with |- context [if ?b then _ else _] => destruct b end;
    [apply only_ValueError_Ok|apply only_ValueError_Raise].
Qed.

Lemma directive_raises (d : ascii) : only_ValueError (directive d).
Proof.
  unfold directive.
  repeat match goal with
         | |- context [if Ascii.eqb d ?c then _ else _] =>
             destruct (Ascii.eqb d c); [apply only_ValueError_Ok|]
         end.
  apply only_ValueError_Raise.
Qed.

Lemma pattern_raises (format : string) : only_ValueError (pattern format).
Proof.
  assert (G : forall n format, (String.length format <= n)%nat ->
                               only_ValueError (pattern format)).
  { clear format. induction n as [|n IH]; intros [|c rest] Hn; simpl in *;
      try apply only_ValueError_Ok; try lia.
    assert (Hrest : only_ValueError (pattern rest)) by (apply IH; lia).
    destruct (Ascii.eqb c "%").
    - destruct rest as [|d rest']; [apply only_ValueError_Raise|].
      apply only_ValueError_bind; [apply directive_raises|intros it].
      apply only_ValueError_bind; [apply IH; simpl in *; lia|].
      intros; apply only_ValueError_Ok.
    - destruct (isspace c).
      + destruct rest as [|c' rest'].
        * apply only_ValueError_Ok.
        * destruct (isspace c'); [exact Hrest|].
          apply only_ValueError_bind; [exact Hrest|intros; apply only_ValueError_Ok].
      + apply only_ValueError_bind; [exact Hrest|intros; apply only_ValueError_Ok]. }
  now apply (G (String.length format)).
Qed.

(** [strptime] fails with [ValueError] and nothing else. *)
Lemma strptime_raises (s format : string) : only_ValueError (strptime s format).
Proof.
  unfold strptime.
  apply only_ValueError_bind; [apply pattern_raises|intros re].
  destruct (re_match re s) as [[found rest]|]; [|apply only_ValueError_Raise].
  destruct (truthy rest); [apply only_ValueError_Raise|].
  repeat (apply only_ValueError_bind;
          [first [apply group_int_raises|apply group_fraction_raises]|intros ?]).
  apply new_raises.
Qed.

End Raises.

(* ================================================================== *)
(** ** [parse_log_line], case by case *)

Section ParseLogLine.

Lemma first_part (message : string) :
  list_getitem (split ":" None message) 0 = Ok (before ":" message).
Proof. destruct (split_head ":" message) as [ps ->]. reflexivity. Qed.

(** Six parts: the result is decided by the timestamp and the level. *)
Lemma parse_log_line_fields (log_line ts lvl mo ob msg un : string) :
  fields log_line = [ts; lvl; mo; ob; msg; un] ->
  parse_log_line log_line =
    match read_timestamp ts, read_level lvl with
    | Ok t, Ok i => Ok (t, i, normalized msg)
    | _, _ => Ok sentinel
    end.
Proof.
  unfold fields, parse_log_line, read_timestamp, read_level. intros ->.
  fold (protected msg).
  assert (Hm : (if protected msg
                then list_getitem (split ":" None msg) 0
                else Ok msg) = Ok (normalized msg)).
  { unfold normalized. destruct (protected msg); [apply first_part|reflexivity]. }
  rewrite Hm; cbn [bind].
  destruct (strptime ts _) as [t|e] eqn:Et; cbn [bind].
  - destruct (index LOG_LEVELS (upper lvl)) as [i|e] eqn:Ei; cbn [bind];
      [reflexivity|].
    now rewrite (index_raises _ _ _ Ei).
  - now rewrite (strptime_raises _ _ _ Et).
Qed.

(** Any other number of parts: the unpacking fails. *)
Lemma parse_log_line_unpack (log_line : string) :
  List.length (fields log_line) <> 6%nat ->
  parse_log_line log_line = Ok sentinel.
Proof.
  unfold fields, parse_log_line. intros H.
  destruct (split ";" (Some 5%nat) log_line) as [|a [|b [|c [|d [|e [|f [|g l]]]]]]];
    simpl in *; try reflexivity; congruence.
Qed.

Lemma six_parts (l : list string) :
  List.length l = 6%nat -> exists a b c d e f, l = [a; b; c; d; e; f].
Proof.
  destruct l as [|a [|b [|c [|d [|e [|f [|g l]]]]]]]; simpl; try discriminate.
  intros _. now exists a, b, c, d, e, f.
Qed.

End ParseLogLine.

(* ================================================================== *)
(** ** [list.index] *)

Section Index.

Lemma index_nth (l : list string) (x : string) (i : Z) :
  index l x = Ok i ->
  0 <= i < Z.of_nat (List.length l) /\ nth_error l (Z.to_nat i) = Some x.
Proof.
  revert i; induction l as [|y l IH]; intros i; simpl; [discriminate|].
  destruct (String.eqb_spec y x) as [->|ne].
  - intros H; inversion H; subst; simpl. split; [lia|reflexivity].
  - destruct (index l x) as [j|e]; simpl; [|discriminate].
    intros H; inversion H; subst. destruct (IH j eq_refl) as [Hj Hn].
    split; [lia|].
    replace (Z.to_nat (j + 1)) with (S (Z.to_nat j)) by lia. exact Hn.
Qed.

Lemma index_absent (l : list string) (x : string) :
  ~ In x l -> index l x = Raise ValueError.
Proof.
  induction l as [|y l IH]; simpl; [reflexivity|]. intros H.
  destruct (String.eqb_spec y x) as [->|ne]; [tauto|].
  rewrite IH by tauto. reflexivity.
Qed.

Lemma index_present (l : list string) (x : string) :
  In x l -> exists i, index l x = Ok i.
Proof.
  induction l as [|y l IH]; simpl; [tauto|]. intros H.
  destruct (String.eqb_spec y x) as [->|ne]; [eauto|].
  destruct IH as [i ->]; [tauto|]. simpl; eauto.
Qed.

(** In a list without repetition the position found is the position of
    the element. *)
Lemma index_NoDup (l : list string) (x : string) (i : nat) :
  NoDup l -> nth_error l i = Some x -> index l x = Ok (Z.of_nat i).
Proof.
  intros Hl; revert i; induction Hl as [|y l Hy Hl IH]; intros i Hi.
  - now destruct i.
  - destruct i as [|i]; simpl in *.
    + inversion Hi; subst. now rewrite String.eqb_refl.
    + destruct (String.eqb_spec y x) as [->|ne].
      * apply nth_error_In in Hi. contradiction.
      * rewrite (IH i Hi). simpl. f_equal. lia.
Qed.

Lemma LOG_LEVELS_NoDup : NoDup LOG_LEVELS.
Proof.
  unfold LOG_LEVELS.
  repeat (constructor; [simpl; intuition discriminate|]). constructor.
Qed.

End Index.

(* ================================================================== *)
(** ** The parser of one entry *)

(** C4: [parse_log_line] returns a triple for every input string and never
    raises; when the split does not give exactly 6 parts, when the
    timestamp field cannot be read, or when the upper-cased level token is
    not in the vocabulary, the triple is exactly the sentinel (minimum
    timestamp, -1, "Invalid log line format"); every result is either that
    sentinel or a triple all of whose fields were parsed. *)
Theorem parse_log_line_sentinel_total :
  sentinel = (mkdatetime 1 1 1 0 0 0 0, -1, "Invalid log line format") /\
  (forall log_line, exists t l m, parse_log_line log_line = Ok (t, l, m)) /\
  (forall log_line,
      List.length (split ";" (Some 5%nat) log_line) <> 6%nat ->
      parse_log_line log_line = Ok sentinel) /\
  (forall log_line ts lvl mo ob msg un,
      split ";" (Some 5%nat) log_line = [ts; lvl; mo; ob; msg; un] ->
      (forall t, read_timestamp ts <> Ok t) \/ ~ In (upper lvl) LOG_LEVELS ->
      parse_log_line log_line = Ok sentinel) /\
  (forall log_line,
      parse_log_line log_line = Ok sentinel \/
      exists ts lvl mo ob msg un t i,
        split ";" (Some 5%nat) log_line = [ts; lvl; mo; ob; msg; un] /\
        read_timestamp ts = Ok t /\ read_level lvl = Ok i /\
        parse_log_line log_line = Ok (t, i, normalized msg)).
Proof.
  assert (cases : forall log_line,
    parse_log_line log_line = Ok sentinel \/
    exists ts lvl mo ob msg un t i,
      split ";" (Some 5%nat) log_line = [ts; lvl; mo; ob; msg; un] /\
      read_timestamp ts = Ok t /\ read_level lvl = Ok i /\
      parse_log_line log_line = Ok (t, i, normalized msg)).
  { intros log_line.
    destruct (Nat.eq_dec (List.length (fields log_line)) 6) as [E|NE].
    - destruct (six_parts _ E) as (ts & lvl & mo & ob & msg & un & F).
      rewrite (parse_log_line_fields _ _ _ _ _ _ _ F).
      destruct (read_timestamp ts) as [t|] eqn:Et; [|now left].
      destruct (read_level lvl) as [i|] eqn:Ei; [|now left].
      right. now exists ts, lvl, mo, ob, msg, un, t, i.
    - left. now apply parse_log_line_unpack. }
  split; [reflexivity|]. split; [|split; [|split]].
  - intros log_line. destruct (cases log_line) as [H|H].
    + rewrite H. unfold sentinel; eauto.
    + destruct H as (ts & lvl & mo & ob & msg & un & t & i & _ & _ & _ & H).
      rewrite H; eauto.
  - exact parse_log_line_unpack.
  - intros log_line ts lvl mo ob msg un F H.
    rewrite (parse_log_line_fields _ _ _ _ _ _ _ F).
    destruct H as [H|H].
    + destruct (read_timestamp ts) as [t|]; [now destruct (H t)|reflexivity].
    + unfold read_level. rewrite (index_absent _ _ H).
      now destruct (read_timestamp ts).
  - exact cases.
Qed.

Lemma parse_log_line_sentinel_total_witness :
  parse_log_line "01-02-2023 10:00:00.000000;FATAL;Mod;Obj;oops;" = Ok sentinel.
Proof.
  apply (proj1 (proj2 (proj2 (proj2 parse_log_line_sentinel_total)))
           "01-02-2023 10:00:00.000000;FATAL;Mod;Obj;oops;"
           "01-02-2023 10:00:00.000000" "FATAL" "Mod" "Obj" "oops" "");
    [reflexivity|].
  right. simpl. intuition discriminate.
Defined.

(** C9: for every input string the parsed level is -1 or an index 0..5 of
    the vocabulary; the level is -1 exactly when the result is the failure
    sentinel; and a level in 0..5 means the split gave six parts, the
    timestamp field was read, and the level is the position of the
    upper-cased level token in [LOG_LEVELS]. *)
Theorem parse_log_line_level_marker (log_line : string) :
  exists t l m,
    parse_log_line log_line = Ok (t, l, m) /\
    (l = -1 \/ 0 <= l <= 5) /\
    (l = -1 <-> (t, l, m) = sentinel) /\
    (0 <= l <= 5 ->
     exists ts lvl mo ob msg un,
       split ";" (Some 5%nat) log_line = [ts; lvl; mo; ob; msg; un] /\
       read_timestamp ts = Ok t /\
       nth_error LOG_LEVELS (Z.to_nat l) = Some (upper lvl) /\
       m = normalized msg).
Proof.
  destruct (Nat.eq_dec (List.length (fields log_line)) 6) as [E|NE].
  - destruct (six_parts _ E) as (ts & lvl & mo & ob & msg & un & F).
    rewrite (parse_log_line_fields _ _ _ _ _ _ _ F).
    destruct (read_timestamp ts) as [t|] eqn:Et.
    + destruct (read_level lvl) as [i|] eqn:Ei.
      * destruct (index_nth _ _ _ Ei) as [Hi Hn]. simpl in Hi.
        exists t, i, (normalized msg). split; [reflexivity|].
        split; [right; lia|]. split.
        -- split; [lia|]. unfold sentinel. intros H; inversion H; lia.
        -- intros _. now exists ts, lvl, mo, ob, msg, un.
      * exists Datetime.min, (-1), "Invalid log line format".
        split; [reflexivity|]. split; [now left|]. split; [easy|lia].
    + exists Datetime.min, (-1), "Invalid log line format".
      split; [reflexivity|]. split; [now left|]. split; [easy|lia].
  - rewrite (parse_log_line_unpack _ NE).
    exists Datetime.min, (-1), "Invalid log line format".
    split; [reflexivity|]. split; [now left|]. split; [easy|lia].
Qed.

(** C8: the level is resolved without regard to case over the ordered
    vocabulary ERROR, WARNING, INFO, DEBUG, VERBOSE1, VERBOSE2, indexed 0
    to 5: a level token whose upper-casing is the token at index [i] is
    resolved to [i], and an entry with such a token and a readable
    timestamp is parsed with level [i]; "error", "Error" and "ERROR" all
    resolve to 0. *)
Theorem level_case_insensitive :
  LOG_LEVELS = ["ERROR"; "WARNING"; "INFO"; "DEBUG"; "VERBOSE1"; "VERBOSE2"] /\
  (forall lvl i, nth_error LOG_LEVELS i = Some (upper lvl) ->
                 index LOG_LEVELS (upper lvl) = Ok (Z.of_nat i)) /\
  (forall log_line ts lvl mo ob msg un t i,
      split ";" (Some 5%nat) log_line = [ts; lvl; mo; ob; msg; un] ->
      read_timestamp ts = Ok t ->
      nth_error LOG_LEVELS i = Some (upper lvl) ->
      exists m, parse_log_line log_line = Ok (t, Z.of_nat i, m)) /\
  index LOG_LEVELS (upper "error") = Ok 0 /\
  index LOG_LEVELS (upper "Error") = Ok 0 /\
  index LOG_LEVELS (upper "ERROR") = Ok 0 /\
  (forall lvl, In lvl ["error"; "Error"; "ERROR"] ->
     parse_log_line ("01-02-2023 10:00:00.000000;" ++ lvl ++ ";Mod;Obj;hello;")
     = Ok (mkdatetime 2023 2 1 10 0 0 0, 0, "hello")).
Proof.
  split; [reflexivity|]. split; [|split].
  - intros lvl i H. now apply index_NoDup; [apply LOG_LEVELS_NoDup|].
  - intros log_line ts lvl mo ob msg un t i F Et Hn.
    rewrite (parse_log_line_fields _ _ _ _ _ _ _ F), Et. unfold read_level.
    rewrite (index_NoDup _ _ _ LOG_LEVELS_NoDup Hn). eauto.
  - repeat split; try reflexivity.
    intros lvl [<-|[<-|[<-|[]]]]; vm_compute; reflexivity.
Qed.

Lemma level_case_insensitive_witness :
  exists m,
    parse_log_line "01-02-2023 10:00:00.000000;Warning;Mod;Obj;hello;"
    = Ok (mkdatetime 2023 2 1 10 0 0 0, Z.of_nat 1, m).
Proof.
  apply (proj1 (proj2 (proj2 level_case_insensitive))
           "01-02-2023 10:00:00.000000;Warning;Mod;Obj;hello;"
           "01-02-2023 10:00:00.000000" "Warning" "Mod" "Obj" "hello" "");
    reflexivity.
Defined.

Lemma before_field (sep : ascii) (a b : string) :
  sepfree sep a = true -> before sep (a ++ String sep b) = a.
Proof.
  induction a as [|c a IH]; simpl; intros H.
  - now rewrite Ascii.eqb_refl.
  - apply andb_prop in H as [Hc Ha]. apply negb_true_iff in Hc.
    now rewrite Hc, IH.
Qed.

Lemma before_sepfree (sep : ascii) (a : string) :
  sepfree sep a = true -> before sep a = a.
Proof.
  induction a as [|c a IH]; simpl; intros H; [reflexivity|].
  apply andb_prop in H as [Hc Ha]. apply negb_true_iff in Hc.
  now rewrite Hc, IH.
Qed.

Lemma startswith_iff (s p : string) :
  startswith s p = true <-> exists r, s = p ++ r.
Proof.
  unfold startswith. revert s; induction p as [|c p IH]; intros s; simpl.
  - split; [intros _; now exists s|intros _; now destruct s].
  - destruct s as [|d s]; [split; [discriminate|intros [r H]; discriminate]|].
    simpl. destruct (ascii_dec c d) as [->|ne].
    + specialize (IH s). split.
      * intros H. apply IH in H as [r ->]. now exists r.
      * intros [r H]. apply IH. exists r. congruence.
    + split; [discriminate|intros [r H]; congruence].
Qed.

Lemma split_six (ts lvl mo ob msg rest : string) :
  sepfree ";" ts = true -> sepfree ";" lvl = true -> sepfree ";" mo = true ->
  sepfree ";" ob = true -> sepfree ";" msg = true ->
  split ";" (Some 5%nat)
    (ts ++ ";" ++ lvl ++ ";" ++ mo ++ ";" ++ ob ++ ";" ++ msg ++ ";" ++ rest)
  = [ts; lvl; mo; ob; msg; rest].
Proof.
  intros H1 H2 H3 H4 H5. cbn [append].
  rewrite !split_field by assumption. now rewrite split_zero.
Qed.

(** C7: in a parsed entry, a message that begins with "Error invoking ",
    "Error executing " or "Error running " is cut to the text strictly
    before its first colon (all of it when it has no colon), and any other
    message is returned unchanged; "Error invoking Foo: bar: baz" is
    parsed to "Error invoking Foo". *)
Theorem message_truncation :
  (forall log_line ts lvl mo ob msg un t i,
      split ";" (Some 5%nat) log_line = [ts; lvl; mo; ob; msg; un] ->
      read_timestamp ts = Ok t -> read_level lvl = Ok i ->
      parse_log_line log_line
      = Ok (t, i, if startswith msg "Error invoking "
                     || startswith msg "Error executing "
                     || startswith msg "Error running "
                  then before ":" msg else msg)) /\
  (forall a b, sepfree ":" a = true -> before ":" (a ++ ":" ++ b) = a) /\
  (forall a, sepfree ":" a = true -> before ":" a = a) /\
  parse_log_line
    "01-02-2023 10:00:00.000000;ERROR;Mod;Obj;Error invoking Foo: bar: baz;"
  = Ok (mkdatetime 2023 2 1 10 0 0 0, 0, "Error invoking Foo") /\
  parse_log_line
    "01-02-2023 10:00:00.000000;ERROR;Mod;Obj;Failure invoking Foo: bar: baz;"
  = Ok (mkdatetime 2023 2 1 10 0 0 0, 0, "Failure invoking Foo: bar: baz").
Proof.
  split; [|split; [|split; [|split]]].
  - intros log_line ts lvl mo ob msg un t i F Et Ei.
    now rewrite (parse_log_line_fields _ _ _ _ _ _ _ F), Et, Ei.
  - intros a b H. now apply before_field.
  - intros a H. now apply before_sepfree.
  - vm_compute; reflexivity.
  - vm_compute; reflexivity.
Qed.

Lemma message_truncation_witness :
  parse_log_line
    "01-02-2023 10:00:00.000000;ERROR;Mod;Obj;Error running job 7: timeout;"
  = Ok (mkdatetime 2023 2 1 10 0 0 0, 0, "Error running job 7").
Proof.
  apply (proj1 message_truncation
           "01-02-2023 10:00:00.000000;ERROR;Mod;Obj;Error running job 7: timeout;"
           "01-02-2023 10:00:00.000000" "ERROR" "Mod" "Obj"
           "Error running job 7: timeout" "");
    reflexivity.
Defined.

(** C5: the split uses at most 5 semicolons and gives at most 6 parts,
    exactly 6 when the line has 5 semicolons or more; joining the parts
    with semicolons gives the line back, so the 6th part keeps every
    further semicolon verbatim; and for an entry of five semicolon-free
    fields followed by a semicolon and any trailing text, with a readable
    timestamp field and a level token of the vocabulary, parsing gives the
    value of that timestamp field, the index of that level token, and the
    message itself when it begins with none of the three protected
    prefixes. *)
Theorem split_round_trip :
  (forall log_line,
      List.length (split ";" (Some 5%nat) log_line)
      = S (Nat.min 5 (count ";" log_line))) /\
  (forall log_line,
      (5 <= count ";" log_line)%nat ->
      List.length (split ";" (Some 5%nat) log_line) = 6%nat) /\
  (forall log_line, join ";" (split ";" (Some 5%nat) log_line) = log_line) /\
  (forall ts lvl mo ob msg rest,
      sepfree ";" ts = true -> sepfree ";" lvl = true ->
      sepfree ";" mo = true -> sepfree ";" ob = true ->
      sepfree ";" msg = true ->
      split ";" (Some 5%nat)
        (ts ++ ";" ++ lvl ++ ";" ++ mo ++ ";" ++ ob ++ ";" ++ msg ++ ";" ++ rest)
      = [ts; lvl; mo; ob; msg; rest]) /\
  (forall ts lvl mo ob msg rest t i,
      sepfree ";" ts = true -> sepfree ";" lvl = true ->
      sepfree ";" mo = true -> sepfree ";" ob = true ->
      sepfree ";" msg = true ->
      read_timestamp ts = Ok t ->
      nth_error LOG_LEVELS i = Some (upper lvl) ->
      startswith msg "Error invoking " = false ->
      startswith msg "Error executing " = false ->
      startswith msg "Error running " = false ->
      parse_log_line
        (ts ++ ";" ++ lvl ++ ";" ++ mo ++ ";" ++ ob ++ ";" ++ msg ++ ";" ++ rest)
      = Ok (t, Z.of_nat i, msg)).
Proof.
  split; [|split; [|split; [|split]]].
  - intros log_line. apply split_length.
  - intros log_line H. rewrite split_length. lia.
  - intros log_line. apply join_split.
  - exact split_six.
  - intros ts lvl mo ob msg rest t i H1 H2 H3 H4 H5 Et Hi P1 P2 P3.
    rewrite (parse_log_line_fields _ _ _ _ _ _ _ (split_six _ _ _ _ _ rest H1 H2 H3 H4 H5)).
    rewrite Et. unfold read_level.
    rewrite (index_NoDup _ _ _ LOG_LEVELS_NoDup Hi).
    unfold normalized, protected. now rewrite P1, P2, P3.
Qed.

Lemma split_round_trip_witness :
  parse_log_line
    ("01-02-2023 10:00:00.000000" ++ ";" ++ "info" ++ ";" ++ "Mod" ++ ";"
     ++ "Obj" ++ ";" ++ "a: b" ++ ";" ++ "x;y;z")
  = Ok (mkdatetime 2023 2 1 10 0 0 0, Z.of_nat 2, "a: b").
Proof.
  apply (proj2 (proj2 (proj2 (proj2 split_round_trip)))); reflexivity.
Defined.

(* ================================================================== *)
(** ** The boundary test *)

Section Boundary.

Lemma get_short (s : string) (n : nat) :
  (String.length s <= n)%nat -> String.get n s = None.
Proof.
  revert n; induction s as [|c s IH]; intros n H; [now destruct n|].
  destruct n as [|n]; simpl in *; [lia|]. apply IH; lia.
Qed.

Lemma get_long (s : string) (n : nat) :
  (n < String.length s)%nat -> exists c, String.get n s = Some c.
Proof.
  revert n; induction s as [|c s IH]; intros n H; simpl in *; [lia|].
  destruct n as [|n]; [eauto|]. apply IH; lia.
Qed.

Lemma all_space_lstrip (s : string) :
  all_chars isspace s = true -> lstrip s = "".
Proof.
  induction s as [|c s IH]; simpl; [reflexivity|].
  intros H; apply andb_prop in H as [-> H]. now apply IH.
Qed.

Lemma all_space_strip (s : string) :
  all_chars isspace s = true -> strip s = "".
Proof. intros H. unfold strip. now rewrite all_space_lstrip. Qed.

(** A whitespace-only line is no boundary, whatever its length. *)
Lemma starts_entry_blank (line : string) :
  all_chars isspace line = true -> starts_entry line = Ok false.
Proof. intros H. unfold starts_entry. now rewrite all_space_strip. Qed.

(** A line of 6 characters or more is always tested without error. *)
Lemma starts_entry_long (line : string) :
  (6 <= String.length line)%nat -> exists b, starts_entry line = Ok b.
Proof.
  intros H. unfold starts_entry, getitem.
  destruct (truthy (strip line)); [|eauto].
  destruct (get_long line 2) as [c2 ->]; [lia|].
  destruct (get_long line 5) as [c5 ->]; [lia|].
  simpl. destruct (Ascii.eqb c2 "-"); eauto.
Qed.

End Boundary.

(** C1 (the code departs from the claim): a line with a visible character
    and at most 2 characters in all, or with a hyphen at index 2 and at
    most 5 characters in all, makes the boundary test index past the end
    of the line, and [read_log_files] raises [IndexError]; so it does for
    a file whose second line is a closing brace. *)
Theorem short_line_raises_IndexError :
  (forall line, truthy (strip line) = true -> (String.length line <= 2)%nat ->
                starts_entry line = Raise IndexError) /\
  (forall line, truthy (strip line) = true -> String.get 2 line = Some "-"%char ->
                (String.length line <= 5)%nat ->
                starts_entry line = Raise IndexError) /\
  starts_entry ("}" ++ nl) = Raise IndexError /\
  starts_entry ("at-" ++ nl) = Raise IndexError /\
  read_log_files
    [("runtime.log",
      ["01-02-2023 10:00:00.000000;ERROR;Mod;Obj;oops;" ++ nl; "}" ++ nl])]
  = Raise IndexError.
Proof.
  split; [|split; [|repeat split; vm_compute; reflexivity]].
  - intros line Hs Hl. unfold starts_entry, getitem.
    now rewrite Hs, (get_short line 2 Hl).
  - intros line Hs H2 Hl. unfold starts_entry, getitem.
    rewrite Hs, H2. simpl. now rewrite (get_short line 5 Hl).
Qed.

(* ================================================================== *)
(** ** The reader of one file *)

Section Reader.

Lemma parse_log_line_returns (log_line : string) :
  exists r, parse_log_line log_line = Ok r.
Proof.
  destruct (Nat.eq_dec (List.length (fields log_line)) 6) as [E|NE].
  - destruct (six_parts _ E) as (ts & lvl & mo & ob & msg & un & F).
    rewrite (parse_log_line_fields _ _ _ _ _ _ _ F).
    destruct (read_timestamp ts); [destruct (read_level lvl)|]; eauto.
  - rewrite (parse_log_line_unpack _ NE); eauto.
Qed.

Lemma RuntimeLogLine_init_returns (log_line : string) :
  exists e, RuntimeLogLine_init log_line = Ok e.
Proof.
  unfold RuntimeLogLine_init.
  destruct (parse_log_line_returns log_line) as [[[t l] m] ->]. simpl; eauto.
Qed.

Lemma flush_returns (log_contents : list RuntimeLogLine) (log_entry : list string) :
  exists e, RuntimeLogLine_init (strip (join " " log_entry)) = Ok e /\
            flush log_contents log_entry = Ok (log_contents ++ [e])%list.
Proof.
  unfold flush.
  destruct (RuntimeLogLine_init_returns (strip (join " " log_entry))) as [e He].
  exists e. now rewrite He.
Qed.

(** One turn of the loop, by the outcome of the boundary test. *)
Lemma line_step_boundary (lc : list RuntimeLogLine) (cur : list string) (line : string) :
  starts_entry line = Ok true -> cur <> [] ->
  exists e, RuntimeLogLine_init (raw_text cur) = Ok e /\
            line_step (lc, map strip cur) line = Ok ((lc ++ [e])%list, map strip [line]).
Proof.
  intros Hb Hc. unfold line_step. rewrite Hb. cbn [bind].
  destruct cur as [|c cur]; [congruence|]. cbn [map nonempty].
  destruct (flush_returns lc (strip c :: map strip cur)) as (e & He & ->).
  exists e. split; [exact He|reflexivity].
Qed.

Lemma line_step_continuation (lc : list RuntimeLogLine) (cur : list string) (line : string) :
  starts_entry line = Ok false ->
  line_step (lc, map strip cur) line = Ok (lc, map strip (cur ++ [line])).
Proof.
  intros Hb. unfold line_step. rewrite Hb. cbn [bind].
  now rewrite map_app.
Qed.

Lemma line_step_first (lc : list RuntimeLogLine) (line : string) (b : bool) :
  starts_entry line = Ok b ->
  line_step (lc, []) line = Ok (lc, map strip [line]).
Proof.
  intros Hb. unfold line_step. rewrite Hb. cbn [bind nonempty].
  now destruct b.
Qed.

Lemma line_step_raises (st : state) (line : string) (e : exn) :
  starts_entry line = Raise e -> line_step st line = Raise e.
Proof. intros Hb. destruct st. unfold line_step. now rewrite Hb. Qed.

Lemma chunks_cons (line : string) (rest : list string) :
  exists g gs, chunks (line :: rest) = (line :: g) :: gs.
Proof.
  simpl. destruct (chunks rest) as [|[|next g] gs]; eauto.
  destruct (is_boundary next); eauto.
Qed.

Lemma chunks_open_boundary (cur : list string) (line : string) (rest : list string) :
  is_boundary line = true ->
  chunks_open cur (line :: rest) = cur :: chunks_open [line] rest.
Proof.
  intros Hb. change (chunks_open [line] rest) with (chunks (line :: rest)).
  unfold chunks_open. destruct (chunks_cons line rest) as (g & gs & ->).
  now rewrite Hb.
Qed.

Lemma chunks_open_continuation (cur : list string) (line : string) (rest : list string) :
  is_boundary line = false ->
  chunks_open cur (line :: rest) = chunks_open (cur ++ [line]) rest.
Proof.
  intros Hb. unfold chunks_open at 1. simpl chunks. unfold chunks_open.
  destruct (chunks rest) as [|[|next g] gs]; rewrite ?Hb; try reflexivity.
  destruct (is_boundary next); rewrite Hb; [reflexivity|].
  now rewrite <- app_assoc.
Qed.

(** The loop from an open group onwards, with the flush that follows
    it, parses the raw text of every group of [chunks_open]. *)
Lemma for_lines_chunks (file : list string) :
  forall (lc : list RuntimeLogLine) (cur : list string) (out : list RuntimeLogLine),
    cur <> [] ->
    (st <- for_lines (lc, map strip cur) file;;
     let '(log_contents, log_entry) := st in
     if nonempty log_entry then flush log_contents log_entry
     else Ok log_contents) = Ok out ->
    exists es,
      out = (lc ++ es)%list /\
      Forall2 (fun g e => RuntimeLogLine_init (raw_text g) = Ok e)
              (chunks_open cur file) es.
Proof.
  induction file as [|line rest IH]; intros lc cur out Hc H.
  - cbn [for_lines bind] in H.
    destruct cur as [|c cur]; [congruence|]. cbn [map nonempty] in H.
    destruct (flush_returns lc (strip c :: map strip cur)) as (e & He & Hf).
    rewrite Hf in H. inversion H; subst.
    exists [e]. split; [reflexivity|].
    unfold chunks_open; simpl. constructor; [exact He|constructor].
  - cbn [for_lines] in H.
    destruct (starts_entry line) as [[|]|x] eqn:Hb.
    + destruct (line_step_boundary lc cur line Hb Hc) as (e & He & Hs).
      rewrite Hs in H. cbn [bind] in H.
      destruct (IH _ [line] out ltac:(discriminate) H) as (es & -> & Hes).
      exists (e :: es). split; [now rewrite <- app_assoc|].
      rewrite chunks_open_boundary by (unfold is_boundary; now rewrite Hb).
      now constructor.
    + rewrite (line_step_continuation lc cur line Hb) in H. cbn [bind] in H.
      destruct (IH lc (cur ++ [line])%list out) as (es & -> & Hes);
        [now destruct cur|exact H|].
      exists es. split; [reflexivity|].
      rewrite chunks_open_continuation by (unfold is_boundary; now rewrite Hb).
      exact Hes.
    + rewrite (line_step_raises _ _ _ Hb) in H. discriminate.
Qed.

(** [read_file] parses the raw text of every group of [chunks]. *)
Lemma read_file_chunks (lc : list RuntimeLogLine) (file : list string)
      (out : list RuntimeLogLine) :
  read_file lc file = Ok out ->
  exists es,
    out = (lc ++ es)%list /\
    Forall2 (fun g e => RuntimeLogLine_init (raw_text g) = Ok e) (chunks file) es.
Proof.
  unfold read_file. destruct file as [|line rest].
  - cbn. intros H; inversion H; subst. exists []. split; [now rewrite app_nil_r|constructor].
  - cbn [for_lines]. intros H.
    destruct (starts_entry line) as [b|x] eqn:Hb.
    + rewrite (line_step_first lc line b Hb) in H. cbn [bind] in H.
      now apply (for_lines_chunks rest lc [line] out).
    + rewrite (line_step_raises _ _ _ Hb) in H. discriminate.
Qed.

(** A file that is read without error has no line on which the
    boundary test fails. *)
Lemma for_lines_tested (file : list string) :
  forall st st', for_lines st file = Ok st' ->
                 Forall (fun l => exists b, starts_entry l = Ok b) file.
Proof.
  induction file as [|line rest IH]; intros st st' H; [constructor|].
  cbn [for_lines] in H.
  destruct (starts_entry line) as [b|x] eqn:Hb.
  - constructor; [eauto|].
    destruct (line_step st line) as [st1|]; [|discriminate].
    exact (IH _ _ H).
  - rewrite (line_step_raises _ _ _ Hb) in H. discriminate.
Qed.

(** A file whose lines can all be tested is read without error. *)
Lemma line_step_returns (st : state) (line : string) (b : bool) :
  starts_entry line = Ok b -> exists st', line_step st line = Ok st'.
Proof.
  intros Hb. destruct st as [lc entry]. unfold line_step. rewrite Hb. cbn [bind].
  destruct b; [destruct (nonempty entry)|]; cbn [bind]; eauto.
  destruct (flush_returns lc entry) as (e & _ & ->). cbn [bind]. eauto.
Qed.

Lemma for_lines_returns (file : list string) :
  Forall (fun l => exists b, starts_entry l = Ok b) file ->
  forall st, exists st', for_lines st file = Ok st'.
Proof.
  induction 1 as [|line rest [b Hb] _ IH]; intros st; cbn [for_lines]; [eauto|].
  destruct (line_step_returns st line b Hb) as [st1 ->]. cbn [bind]. apply IH.
Qed.

Lemma read_file_returns (lc : list RuntimeLogLine) (file : list string) :
  Forall (fun l => exists b, starts_entry l = Ok b) file ->
  exists out, read_file lc file = Ok out.
Proof.
  intros H. unfold read_file.
  destruct (for_lines_returns file H (lc, [])) as [[lc' entry] ->]. cbn [bind].
  destruct (nonempty entry); [|eauto].
  destruct (flush_returns lc' entry) as (e & _ & ->). eauto.
Qed.

Lemma read_file_tested (lc : list RuntimeLogLine) (file : list string)
      (out : list RuntimeLogLine) :
  read_file lc file = Ok out ->
  Forall (fun l => exists b, starts_entry l = Ok b) file.
Proof.
  unfold read_file. intros H.
  destruct (for_lines (lc, []) file) as [st|] eqn:E; [|discriminate].
  exact (for_lines_tested _ _ _ E).
Qed.

End Reader.

Section Chunks.

(** [chunks] cuts the file, in order, into non-empty groups; inside a
    group no line after the first is a boundary line, and every group
    after the first begins with a boundary line. *)
Lemma chunks_spec (lines : list string) :
  List.concat (chunks lines) = lines /\
  Forall (fun g => g <> []) (chunks lines) /\
  Forall (fun g => Forall (fun l => is_boundary l = false) (tl g)) (chunks lines) /\
  Forall (fun g => exists l, hd_error g = Some l /\ is_boundary l = true)
         (tl (chunks lines)).
Proof.
  induction lines as [|line rest (Hc & Hn & Ht & Hh)]; simpl.
  - repeat split; constructor.
  - destruct (chunks rest) as [|[|next g] gs] eqn:E.
    + simpl in Hc; subst rest. repeat split; repeat constructor; discriminate.
    + inversion Hn; congruence.
    + destruct (is_boundary next) eqn:B; simpl in *.
      * split; [now rewrite Hc|]. split; [constructor; [discriminate|exact Hn]|].
        split; [constructor; [constructor|exact Ht]|].
        constructor; [now exists next|exact Hh].
      * split; [now rewrite Hc|].
        inversion Hn; subst. inversion Ht; subst.
        split; [constructor; [discriminate|assumption]|].
        split; [|exact Hh].
        constructor; [|assumption]. simpl. now constructor.
  Qed.

End Chunks.

(** C6 (as amended): for every file that is read without error, the lines
    fall, in order, into non-empty groups -- a boundary line opens a new
    group once a line has been accumulated, no other line does, and what
    is accumulated at the end of the file is the last group -- and the
    entries appended are the parses of the groups' raw texts, the raw text
    of a group being its lines each stripped, joined with a single space,
    and the joined text stripped once more.  The two lines
    "01-02-2023 10:00:00.000000;ERROR;M;O;oops" and "more detail" merge
    into "01-02-2023 10:00:00.000000;ERROR;M;O;oops more detail". *)
Theorem merged_raw_text :
  (forall log_contents file out,
      read_file log_contents file = Ok out ->
      exists groups entries,
        List.concat groups = file /\
        Forall (fun g => g <> []) groups /\
        Forall (fun g => Forall (fun l => starts_entry l = Ok false) (tl g)) groups /\
        Forall (fun g => exists l, hd_error g = Some l /\ starts_entry l = Ok true)
               (tl groups) /\
        Forall2 (fun g e =>
                   RuntimeLogLine_init (strip (join " " (map strip g))) = Ok e)
                groups entries /\
        out = (log_contents ++ entries)%list) /\
  (let file := ["01-02-2023 10:00:00.000000;ERROR;M;O;oops"; "more detail"] in
   chunks file = [file] /\
   strip (join " " (map strip file))
   = "01-02-2023 10:00:00.000000;ERROR;M;O;oops more detail" /\
   read_file [] file
   = (e <- RuntimeLogLine_init
             "01-02-2023 10:00:00.000000;ERROR;M;O;oops more detail";;
      Ok [e])).
Proof.
  split; [|repeat split; vm_compute; reflexivity].
  intros lc file out H.
  destruct (read_file_chunks _ _ _ H) as (es & -> & Hes).
  pose proof (read_file_tested _ _ _ H) as Htested.
  destruct (chunks_spec file) as (Hc & Hn & Ht & Hh).
  assert (Hin : forall g l, In g (chunks file) -> In l g ->
                            exists b, starts_entry l = Ok b).
  { intros g l Hg Hl. rewrite Forall_forall in Htested. apply Htested.
    rewrite <- Hc. apply in_concat. eauto. }
  exists (chunks file), es. repeat split; try assumption.
  - rewrite Forall_forall in *. intros g Hg. specialize (Ht g Hg).
    rewrite Forall_forall in *. intros l Hl. specialize (Ht l Hl).
    destruct (Hin g l Hg) as [b Hb]; [destruct g; [easy|now right]|].
    unfold is_boundary in Ht. rewrite Hb in *. now destruct b.
  - rewrite Forall_forall in *. intros g Hg.
    destruct (Hh g Hg) as (l & Hl & Hb). exists l. split; [exact Hl|].
    unfold is_boundary in Hb. destruct (starts_entry l) as [[|]|]; congruence.
Qed.

Lemma merged_raw_text_witness :
  exists groups entries,
    List.concat groups
    = ["01-02-2023 10:00:00.000000;ERROR;M;O;oops;" ++ nl;
       "   at line 7" ++ nl;
       "02-02-2023 11:30:00.250000;info;M;O;next;" ++ nl] /\
    Forall (fun g => g <> []) groups /\
    Forall (fun g => Forall (fun l => starts_entry l = Ok false) (tl g)) groups /\
    Forall (fun g => exists l, hd_error g = Some l /\ starts_entry l = Ok true)
           (tl groups) /\
    Forall2 (fun g e =>
               RuntimeLogLine_init (strip (join " " (map strip g))) = Ok e)
            groups entries /\
    [mkRuntimeLogLine (mkdatetime 2023 2 1 10 0 0 0) 0 "oops";
     mkRuntimeLogLine (mkdatetime 2023 2 2 11 30 0 250000) 2 "next"]
    = ([] ++ entries)%list.
Proof.
  apply (proj1 merged_raw_text).
  vm_compute; reflexivity.
Defined.

(** C6, the claim as worded fails: a blank line followed by an indented
    entry line form one group; joined as the claim says, the raw text
    keeps the space that the join puts after the empty first line, and
    that text parses to the sentinel; the reader strips the joined text
    and parses an ERROR entry.  A blank line after an entry line leaves a
    trailing space in the same way. *)
Lemma claimed_raw_text_differs :
  chunks [nl; " 01-02-2023 10:00:00.000000;ERROR;Mod;Obj;oops;" ++ nl]
  = [[nl; " 01-02-2023 10:00:00.000000;ERROR;Mod;Obj;oops;" ++ nl]] /\
  claimed_raw_text [nl; " 01-02-2023 10:00:00.000000;ERROR;Mod;Obj;oops;" ++ nl]
  = " 01-02-2023 10:00:00.000000;ERROR;Mod;Obj;oops;" /\
  RuntimeLogLine_init
    (claimed_raw_text [nl; " 01-02-2023 10:00:00.000000;ERROR;Mod;Obj;oops;" ++ nl])
  = Ok invalid_entry /\
  read_file [] [nl; " 01-02-2023 10:00:00.000000;ERROR;Mod;Obj;oops;" ++ nl]
  = Ok [mkRuntimeLogLine (mkdatetime 2023 2 1 10 0 0 0) 0 "oops"] /\
  claimed_raw_text ["01-02-2023 10:00:00.000000;ERROR;Mod;Obj;oops;" ++ nl; nl]
  = "01-02-2023 10:00:00.000000;ERROR;Mod;Obj;oops; " /\
  raw_text ["01-02-2023 10:00:00.000000;ERROR;Mod;Obj;oops;" ++ nl; nl]
  = "01-02-2023 10:00:00.000000;ERROR;Mod;Obj;oops;".
Proof. repeat split; vm_compute; reflexivity. Qed.

(* ================================================================== *)
(** ** Empty and blank files *)

Section Blank.

Lemma for_lines_blank (file : list string) :
  forall lc entry,
    Forall (fun l => all_chars isspace l = true) file ->
    for_lines (lc, entry) file
    = Ok (lc, (entry ++ repeat "" (List.length file))%list).
Proof.
  induction file as [|line rest IH]; intros lc entry H; cbn [for_lines].
  - simpl. now rewrite app_nil_r.
  - inversion H as [|? ? Hl Hr]; subst.
    unfold line_step. rewrite (starts_entry_blank _ Hl). cbn [bind].
    rewrite (all_space_strip _ Hl), (IH _ _ Hr). cbn [List.length repeat].
    now rewrite <- app_assoc.
Qed.

Lemma join_blank (n : nat) : all_chars isspace (join " " (repeat "" n)) = true.
Proof.
  induction n as [|[|n] IH]; try reflexivity.
  change (repeat "" (S (S n))) with ("" :: repeat "" (S n)).
  cbn [repeat join] in *. exact IH.
Qed.

Lemma for_filenames_app (d1 d2 : folder) :
  forall lc, for_filenames lc (d1 ++ d2)%list
             = (lc' <- for_filenames lc d1;; for_filenames lc' d2).
Proof.
  induction d1 as [|[name file] d1 IH]; intros lc; [reflexivity|].
  cbn [app for_filenames]. destruct (endswith name ".log"); [|apply IH].
  destruct (read_file lc file); cbn [bind]; [apply IH|reflexivity].
Qed.

Lemma read_file_empty (lc : list RuntimeLogLine) : read_file lc [] = Ok lc.
Proof. reflexivity. Qed.

Lemma read_file_blank (lc : list RuntimeLogLine) (file : list string) :
  file <> [] -> Forall (fun l => all_chars isspace l = true) file ->
  read_file lc file = Ok (lc ++ [invalid_entry])%list.
Proof.
  intros Hne H. unfold read_file. rewrite (for_lines_blank file lc [] H).
  cbn [bind app]. destruct file as [|l file]; [congruence|].
  cbn [List.length repeat nonempty]. unfold flush.
  change ("" :: repeat "" (List.length file)) with (repeat "" (S (List.length file))).
  now rewrite (all_space_strip _ (join_blank _)).
Qed.

End Blank.

(** C10: among the files of the folder, a [.log] file without lines adds
    no entry to the collection, and a [.log] file that has lines, all of
    them whitespace only, adds exactly one entry: the sentinel, with level
    -1 and message "Invalid log line format". *)
Theorem empty_and_blank_files (before_it after_it : folder) (filename : string) :
  endswith filename ".log" = true ->
  read_log_files [(filename, [])] = Ok [] /\
  read_log_files (before_it ++ (filename, []) :: after_it)%list
  = read_log_files (before_it ++ after_it)%list /\
  (forall file,
      file <> [] -> Forall (fun l => all_chars isspace l = true) file ->
      read_log_files [(filename, file)]
      = Ok [mkRuntimeLogLine Datetime.min (-1) "Invalid log line format"] /\
      read_log_files (before_it ++ (filename, file) :: after_it)%list
      = (log_contents <- read_log_files before_it;;
         for_filenames
           (log_contents
            ++ [mkRuntimeLogLine Datetime.min (-1) "Invalid log line format"])%list
           after_it)).
Proof.
  intros Hlog. unfold read_log_files. split; [|split].
  - cbn [for_filenames]. now rewrite Hlog.
  - rewrite !for_filenames_app. destruct (for_filenames [] before_it); [|reflexivity].
    cbn [bind for_filenames]. now rewrite Hlog.
  - intros file Hne Hb. split.
    + cbn [for_filenames]. now rewrite Hlog, (read_file_blank [] file Hne Hb).
    + rewrite for_filenames_app. destruct (for_filenames [] before_it) as [lc|]; [|reflexivity].
      cbn [bind for_filenames]. now rewrite Hlog, (read_file_blank lc file Hne Hb).
Qed.

Lemma empty_and_blank_files_witness :
  read_log_files [("empty.log", [])] = Ok [] /\
  read_log_files [("blank.log", [nl; "  " ++ nl])]
  = Ok [mkRuntimeLogLine Datetime.min (-1) "Invalid log line format"].
Proof.
  split.
  - apply (empty_and_blank_files [] [] "empty.log"). reflexivity.
  - apply (empty_and_blank_files [] [] "blank.log"); [reflexivity|discriminate|].
    repeat constructor.
Defined.

(* ================================================================== *)
(** ** The console line *)

(** C3 (as amended): for every entry that passes the severity filter
    (level 0 or 1) the line printed is exactly the timestamp formatted
    with "%d-%m-%Y %H:%M:%S", a semicolon and a space, the level token
    left-justified to 10 characters, a semicolon and a space, and the
    message. *)
Theorem console_line (content : RuntimeLogLine) :
  0 <= level content <= 1 ->
  print_content content
  = Ok (Some (strftime (timestamp content) "%d-%m-%Y %H:%M:%S"
              ++ ";" ++ " "
              ++ (if level content =? 0 then "ERROR     " else "WARNING   ")
              ++ ";" ++ " "
              ++ message content)).
Proof.
  intros H. unfold print_content. cbn [LOG_LEVELS index String.eqb bind].
  assert (E : level content = 0 \/ level content = 1) by lia.
  destruct E as [E|E]; rewrite E; reflexivity.
Qed.

Lemma console_line_witness :
  print_content (mkRuntimeLogLine (mkdatetime 2023 2 1 10 0 0 0) 1 "low disk")
  = Ok (Some "01-02-2023 10:00:00; WARNING   ; low disk").
Proof.
  apply (console_line (mkRuntimeLogLine (mkdatetime 2023 2 1 10 0 0 0) 1 "low disk")).
  simpl; lia.
Defined.

(** C3, the claim as worded fails: the line printed for an ERROR entry
    has a space after each semicolon, which the claimed line has not. *)
Lemma claimed_console_line_differs :
  print_content (mkRuntimeLogLine (mkdatetime 2023 2 1 10 0 0 0) 0 "oops")
  = Ok (Some "01-02-2023 10:00:00; ERROR     ; oops") /\
  claimed_console_line (mkRuntimeLogLine (mkdatetime 2023 2 1 10 0 0 0) 0 "oops")
  = "01-02-2023 10:00:00;ERROR     ;oops" /\
  main [("runtime.log", ["01-02-2023 10:00:00.000000;ERROR;Mod;Obj;oops;" ++ nl])]
  = Ok ["01-02-2023 10:00:00; ERROR     ; oops"].
Proof. repeat split; vm_compute; reflexivity. Qed.

(* ================================================================== *)
(** ** The timestamp format *)

Section Characters.

Lemma isdigit_cases (c : ascii) :
  isdigit c = true ->
  In c ["0"; "1"; "2"; "3"; "4"; "5"; "6"; "7"; "8"; "9"]%char.
Proof.
  destruct c as [[] [] [] [] [] [] [] []]; intros H;
    try discriminate H; simpl; tauto.
Qed.

Lemma isdigit_not_space (c : ascii) : isdigit c = true -> isspace c = false.
Proof.
  intros H. apply isdigit_cases in H. simpl in H.
  repeat (destruct H as [<-|H]; [reflexivity|]). destruct H.
Qed.

Lemma rng_isdigit (a b c : ascii) :
  isdigit a = true -> isdigit b = true -> rng a b c = true -> isdigit c = true.
Proof.
  unfold rng, isdigit, in_range. intros Ha Hb Hc.
  apply andb_prop in Ha as [Ha _]. apply andb_prop in Hb as [_ Hb].
  apply andb_prop in Hc as [Hc1 Hc2].
  apply andb_true_intro; split; apply Z.leb_le; apply Z.leb_le in Ha, Hb, Hc1, Hc2; lia.
Qed.

Lemma ch_eq (a c : ascii) : ch a c = true -> c = a.
Proof. unfold ch. intros H. now apply Ascii.eqb_eq in H. Qed.

End Characters.

Section MatchSound.

Lemma match_seq_sound (cs : list cls) :
  forall s m r,
    match_seq cs s = Some (m, r) ->
    s = m ++ r /\ String.length m = List.length cs /\
    ((forall p, In p cs -> forall c, p c = true -> isdigit c = true) ->
     all_chars isdigit m = true).
Proof.
  induction cs as [|p cs IH]; intros s m r H; simpl in H.
  - inversion H; subst. repeat split.
  - destruct s as [|c s]; [discriminate|].
    destruct (p c) eqn:Hp; [|discriminate].
    destruct (match_seq cs s) as [[m' r']|] eqn:E; [|discriminate].
    inversion H; subst. destruct (IH _ _ _ E) as (-> & Hl & Hd).
    repeat split; simpl; [now rewrite Hl|].
    intros Hall. rewrite (Hall p (or_introl eq_refl) c Hp). simpl.
    apply Hd. intros q Hq. apply Hall. now right.
Qed.

Lemma first_alt_sound {A} (f : list cls -> option A) (alts : list (list cls)) (x : A) :
  first_alt f alts = Some x -> exists a, In a alts /\ f a = Some x.
Proof.
  induction alts as [|a alts IH]; simpl; [discriminate|].
  destruct (f a) as [y|] eqn:E.
  - intros H; inversion H; subst. exists a. auto.
  - intros H. destruct (IH H) as (a' & Hin & Ha'). exists a'. auto.
Qed.

Lemma repeat_cls_sound {A} (p : cls) (s : string) :
  forall lo hi (k : string -> string -> option A) x,
    repeat_cls p lo hi k s = Some x ->
    exists m r,
      s = m ++ r /\ all_chars p m = true /\ (lo <= String.length m)%nat /\
      (forall h, hi = Some h -> (String.length m <= h)%nat) /\
      k m r = Some x.
Proof.
  induction s as [|c s IH]; intros lo hi k x H.
  - simpl in H. destruct lo; [|discriminate].
    exists "", "". repeat split; simpl; intros; try lia; auto.
  - assert (stop : match lo with O => k "" (String c s) | S _ => None end = Some x ->
                   exists m r,
                     String c s = m ++ r /\ all_chars p m = true /\
                     (lo <= String.length m)%nat /\
                     (forall h, hi = Some h -> (String.length m <= h)%nat) /\
                     k m r = Some x).
    { destruct lo; [|discriminate]. intros Hk.
      exists "", (String c s). repeat split; simpl; intros; try lia; auto. }
    simpl in H. destruct (p c && may_take hi) eqn:Hc; [|now apply stop].
    apply andb_prop in Hc as [Hp Hm].
    destruct (repeat_cls p (Nat.pred lo) (option_map Nat.pred hi)
                (fun m r => k (String c m) r) s) as [y|] eqn:E; [|now apply stop].
    inversion H; subst y.
    destruct (IH _ _ _ _ E) as (m & r & -> & Hall & Hlo & Hhi & Hk).
    exists (String c m), r. repeat split; simpl.
    + now rewrite Hp, Hall.
    + lia.
    + intros h ->. destruct h as [|h]; [discriminate|].
      specialize (Hhi h eq_refl). lia.
    + exact Hk.
Qed.

Lemma re_match_Lit (c : ascii) (re : list item) (s : string) (x : captures * string) :
  re_match (Lit c :: re) s = Some x ->
  exists s', s = String c s' /\ re_match re s' = Some x.
Proof.
  simpl. destruct s as [|c' s']; [discriminate|].
  destruct (Ascii.eqb_spec c' c) as [->|]; [eauto|discriminate].
Qed.

Lemma re_match_Group (n : ascii) (alts : list (list cls)) (re : list item)
      (s : string) (gs : captures) (e : string) :
  re_match (Group n alts :: re) s = Some (gs, e) ->
  exists a m r gs',
    In a alts /\ match_seq a s = Some (m, r) /\
    re_match re r = Some (gs', e) /\ gs = (n, m) :: gs'.
Proof.
  simpl. intros H. apply first_alt_sound in H as (a & Hin & H).
  destruct (match_seq a s) as [[m r]|] eqn:E; [|discriminate].
  destruct (re_match re r) as [[gs' e']|] eqn:E'; [|discriminate].
  inversion H; subst. now exists a, m, r, gs'.
Qed.

Lemma re_match_Rep (name : option ascii) (p : cls) (lo : nat) (hi : option nat)
      (re : list item) (s : string) (gs : captures) (e : string) :
  re_match (Rep name p lo hi :: re) s = Some (gs, e) ->
  exists m r gs',
    s = m ++ r /\ all_chars p m = true /\ (lo <= String.length m)%nat /\
    (forall h, hi = Some h -> (String.length m <= h)%nat) /\
    re_match re r = Some (gs', e) /\ gs = capture name m gs'.
Proof.
  simpl. intros H. apply repeat_cls_sound in H as (m & r & -> & Hall & Hlo & Hhi & H).
  destruct (re_match re r) as [[gs' e']|] eqn:E'; [|discriminate].
  inversion H; subst. now exists m, r, gs'.
Qed.

End MatchSound.

Section Values.

Lemma lstrip_digits (s : string) : all_chars isdigit s = true -> lstrip s = s.
Proof.
  destruct s as [|c s]; simpl; [reflexivity|]. intros H.
  apply andb_prop in H as [H _]. now rewrite (isdigit_not_space c H).
Qed.

Lemma rstrip_digits (s : string) : all_chars isdigit s = true -> rstrip s = s.
Proof.
  induction s as [|c s IH]; simpl; [reflexivity|]. intros H.
  apply andb_prop in H as [Hc Hs]. rewrite (IH Hs).
  destruct s; [now rewrite (isdigit_not_space c Hc)|reflexivity].
Qed.

Lemma strip_digits (s : string) : all_chars isdigit s = true -> strip s = s.
Proof. intros H. unfold strip. now rewrite lstrip_digits, rstrip_digits. Qed.

Lemma int_digits_value (s : string) :
  forall acc, all_chars isdigit s = true -> int_digits acc s = Ok (value_from acc s).
Proof.
  induction s as [|c s IH]; intros acc; simpl; [reflexivity|]. intros H.
  apply andb_prop in H as [-> Hs]. now apply IH.
Qed.

Lemma int_value (lo hi : nat) (s : string) :
  (1 <= lo)%nat -> digits lo hi s -> int s = Ok (value s).
Proof.
  intros Hlo [Hd Hl]. unfold int. rewrite (strip_digits s Hd).
  destruct s as [|c s]; [simpl in Hl; lia|]. now apply int_digits_value.
Qed.

Lemma int_day (d : string) : day_field d -> int d = Ok (value d).
Proof.
  intros [H|(c & -> & Hc)]; [now apply (int_value 1 2)|].
  unfold int, strip, value. simpl.
  rewrite (isdigit_not_space c Hc). simpl.
  rewrite (isdigit_not_space c Hc). simpl. now rewrite Hc.
Qed.

Lemma value_from_app (f g : string) :
  forall acc, value_from acc (f ++ g) = value_from (value_from acc f) g.
Proof. induction f as [|c f IH]; intros acc; simpl; [reflexivity|apply IH]. Qed.

Lemma value_from_zeros (k : nat) :
  forall acc, value_from acc (zeros k) = acc * 10 ^ Z.of_nat k.
Proof.
  induction k as [|k IH]; intros acc.
  - simpl. lia.
  - cbn [zeros value_from]. change (isdigit "0") with true. cbn iota.
    rewrite IH. change (digit_val "0") with 0.
    rewrite Nat2Z.inj_succ, Z.pow_succ_r by lia. lia.
Qed.

Lemma all_chars_app (p : ascii -> bool) (f g : string) :
  all_chars p (f ++ g) = all_chars p f && all_chars p g.
Proof.
  induction f as [|c f IH]; simpl; [reflexivity|].
  now rewrite IH, andb_assoc.
Qed.

Lemma zeros_digits (k : nat) : all_chars isdigit (zeros k) = true.
Proof. induction k; [reflexivity|exact IHk]. Qed.

Lemma int_fraction (f : string) :
  digits 1 6 f -> int (f ++ zeros (6 - String.length f)) = Ok (micros f).
Proof.
  intros [Hd Hl]. unfold int.
  assert (Ha : all_chars isdigit (f ++ zeros (6 - String.length f)) = true)
    by now rewrite all_chars_app, Hd, zeros_digits.
  rewrite (strip_digits _ Ha).
  destruct f as [|c f']; [simpl in Hl; lia|].
  set (k := (6 - String.length (String c f'))%nat) in *.
  change (String c f' ++ zeros k) with (String c (f' ++ zeros k)) in *.
  cbn iota. rewrite (int_digits_value _ 0 Ha).
  change (String c (f' ++ zeros k)) with (String c f' ++ zeros k).
  rewrite value_from_app, value_from_zeros.
  unfold micros, value. do 3 f_equal. lia.
Qed.

End Values.

Lemma append_nil_r (s : string) : s ++ "" = s.
Proof. induction s as [|c s IH]; simpl; [reflexivity|now rewrite IH]. Qed.


Section StrptimeSound.

Lemma pattern_format : pattern "%d-%m-%Y %H:%M:%S.%f" = Ok format_regex.
Proof. reflexivity. Qed.

Ltac digit_classes :=
  let p := fresh "p" in
  let Hp := fresh "Hp" in
  let c := fresh "c" in
  let Hc := fresh "Hc" in
  intros p Hp c Hc; simpl in Hp;
  repeat (destruct Hp as [<-|Hp];
          [first [exact Hc
                 |eapply rng_isdigit; [| |exact Hc]; reflexivity
                 |apply ch_eq in Hc; subst c; reflexivity]|]);
  solve [destruct Hp].

(** What an alternative of all-digit classes, one or two long, matches. *)
Lemma match_short (a : list cls) (s m r : string) :
  (forall p, In p a -> forall c, p c = true -> isdigit c = true) ->
  (1 <= List.length a <= 2)%nat ->
  match_seq a s = Some (m, r) -> s = m ++ r /\ digits 1 2 m.
Proof.
  intros Ha Hl H. destruct (match_seq_sound _ _ _ _ H) as (-> & Hlen & Hd).
  split; [reflexivity|]. split; [now apply Hd|lia].
Qed.

Lemma match_d (a : list cls) (s m r : string) :
  In a [[ch "3"; rng "0" "1"]; [rng "1" "2"; digit];
        [ch "0"; rng "1" "9"]; [rng "1" "9"]; [ch " "; rng "1" "9"]] ->
  match_seq a s = Some (m, r) -> s = m ++ r /\ day_field m.
Proof.
  intros Hin H. simpl in Hin.
  destruct Hin as [<-|[<-|[<-|[<-|[<-|[]]]]]];
    try (apply match_short in H as [-> Hm];
         [split; [reflexivity|now left]|digit_classes|simpl; lia]).
  destruct s as [|c1 [|c2 s]]; cbn [match_seq] in H; try discriminate.
  - destruct (ch " " c1); discriminate.
  - destruct (ch " " c1) eqn:H1; [|discriminate].
    destruct (rng "1" "9" c2) eqn:H2; [|discriminate].
    inversion H; subst. apply ch_eq in H1; subst c1.
    split; [reflexivity|]. right. exists c2. split; [reflexivity|].
    now apply (rng_isdigit "1" "9").
Qed.

Lemma match_m (a : list cls) (s m r : string) :
  In a [[ch "1"; rng "0" "2"]; [ch "0"; rng "1" "9"]; [rng "1" "9"]] ->
  match_seq a s = Some (m, r) -> s = m ++ r /\ digits 1 2 m.
Proof.
  intros Hin H. simpl in Hin.
  destruct Hin as [<-|[<-|[<-|[]]]];
    (apply match_short in H; [exact H|digit_classes|simpl; lia]).
Qed.

Lemma match_Y (a : list cls) (s m r : string) :
  In a [[digit; digit; digit; digit]] ->
  match_seq a s = Some (m, r) -> s = m ++ r /\ digits 4 4 m.
Proof.
  intros [<-|[]] H. destruct (match_seq_sound _ _ _ _ H) as (-> & Hlen & Hd).
  split; [reflexivity|]. split; [apply Hd; digit_classes|simpl in Hlen; lia].
Qed.

Lemma match_H (a : list cls) (s m r : string) :
  In a [[ch "2"; rng "0" "3"]; [rng "0" "1"; digit]; [digit]] ->
  match_seq a s = Some (m, r) -> s = m ++ r /\ digits 1 2 m.
Proof.
  intros Hin H. simpl in Hin.
  destruct Hin as [<-|[<-|[<-|[]]]];
    (apply match_short in H; [exact H|digit_classes|simpl; lia]).
Qed.

Lemma match_M (a : list cls) (s m r : string) :
  In a [[rng "0" "5"; digit]; [digit]] ->
  match_seq a s = Some (m, r) -> s = m ++ r /\ digits 1 2 m.
Proof.
  intros Hin H. simpl in Hin.
  destruct Hin as [<-|[<-|[]]];
    (apply match_short in H; [exact H|digit_classes|simpl; lia]).
Qed.

Lemma match_S (a : list cls) (s m r : string) :
  In a [[ch "6"; rng "0" "1"]; [rng "0" "5"; digit]; [digit]] ->
  match_seq a s = Some (m, r) -> s = m ++ r /\ digits 1 2 m.
Proof.
  intros Hin H. simpl in Hin.
  destruct Hin as [<-|[<-|[<-|[]]]];
    (apply match_short in H; [exact H|digit_classes|simpl; lia]).
Qed.

(** Every text [strptime] reads is a lenient timestamp, and the point
    in time returned is the one its fields stand for. *)
Lemma strptime_sound (ts : string) (t : datetime) :
  read_timestamp ts = Ok t -> lenient_timestamp ts t.
Proof.
  unfold read_timestamp, strptime. rewrite pattern_format. cbn [bind].
  destruct (re_match format_regex ts) as [[found rest]|] eqn:R; [|discriminate].
  destruct rest as [|c rest]; cbn [truthy]; [|discriminate].
  unfold format_regex in R.
  apply re_match_Group in R as (a1 & d & r1 & g1 & I1 & S1 & R & ->).
  apply match_d in S1 as [-> Fd]; [|exact I1].
  apply re_match_Lit in R as (r2 & -> & R).
  apply re_match_Group in R as (a2 & m & r3 & g2 & I2 & S2 & R & ->).
  apply match_m in S2 as [-> Fm]; [|exact I2].
  apply re_match_Lit in R as (r4 & -> & R).
  apply re_match_Group in R as (a3 & y & r5 & g3 & I3 & S3 & R & ->).
  apply match_Y in S3 as [-> Fy]; [|exact I3].
  apply re_match_Rep in R as (w & r6 & g4 & -> & Ww & Wl & _ & R & ->).
  apply re_match_Group in R as (a4 & H & r7 & g5 & I4 & S4 & R & ->).
  apply match_H in S4 as [-> FH]; [|exact I4].
  apply re_match_Lit in R as (r8 & -> & R).
  apply re_match_Group in R as (a5 & M & r9 & g6 & I5 & S5 & R & ->).
  apply match_M in S5 as [-> FM]; [|exact I5].
  apply re_match_Lit in R as (r10 & -> & R).
  apply re_match_Group in R as (a6 & S & r11 & g7 & I6 & S6 & R & ->).
  apply match_S in S6 as [-> FS]; [|exact I6].
  apply re_match_Lit in R as (r12 & -> & R).
  apply re_match_Rep in R as (f & r13 & g8 & -> & Wf & Lf & Hf & R & ->).
  cbn [re_match] in R. inversion R; subst g8 r13. clear R.
  assert (Ff : digits 1 6 f) by (split; [exact Wf|split; [exact Lf|now apply Hf]]).
  cbn [capture].
  change (group_int _ "Y" 1900) with (int y).
  change (group_int _ "m" 1) with (int m).
  change (group_int _ "d" 1) with (int d).
  change (group_int _ "H" 0) with (int H).
  change (group_int _ "M" 0) with (int M).
  change (group_int _ "S" 0) with (int S).
  change (group_fraction _) with (int (f ++ zeros (6 - String.length f))).
  rewrite (int_value 4 4 y), (int_value 1 2 m), (int_day d), (int_value 1 2 H),
    (int_value 1 2 M), (int_value 1 2 S), (int_fraction f) by (assumption || lia).
  cbn [bind]. intros Hnew.
  exists d, m, y, w, H, M, S, f.
  split; [now rewrite append_nil_r|].
  assert (Fw : blank w).
  { split; [exact Ww|]. destruct w; [simpl in Wl; lia|discriminate]. }
  exact (conj Fd (conj Fm (conj Fy (conj Fw (conj FH (conj FM (conj FS
           (conj Ff Hnew)))))))).
Qed.

End StrptimeSound.

Section StrptimeComplete.












End StrptimeComplete.

Section StrptimeExact.





End StrptimeExact.

Section ExactPattern.


End ExactPattern.




(* ================================================================== *)
(** ** Further properties of the reader *)

Section Strip.

Lemma lstrip_head (s : string) :
  match lstrip s with
  | EmptyString => True
  | String c _ => isspace c = false
  end.
Proof.
  induction s as [|c s IH]; simpl; [exact I|].
  destruct (isspace c) eqn:E; [exact IH|exact E].
Qed.

Lemma rstrip_head (c : ascii) (t : string) :
  isspace c = false -> exists t', rstrip (String c t) = String c t'.
Proof.
  intros H. simpl. destruct (rstrip t); [rewrite H|]; eauto.
Qed.

Lemma rstrip_idempotent (s : string) : rstrip (rstrip s) = rstrip s.
Proof.
  induction s as [|c s IH]; [reflexivity|]. simpl.
  destruct (rstrip s) as [|d r] eqn:E.
  - destruct (isspace c) eqn:Hc; [reflexivity|]. simpl. now rewrite Hc.
  - change (rstrip (String c (String d r))) with
      (match rstrip (String d r) with
       | EmptyString => if isspace c then EmptyString else String c EmptyString
       | r' => String c r'
       end).
    now rewrite IH.
Qed.

(** Stripped text neither begins nor ends with whitespace, so stripping
    it again changes nothing. *)
Lemma strip_head (s : string) (c : ascii) (t : string) :
  strip s = String c t -> isspace c = false.
Proof.
  unfold strip. pose proof (lstrip_head s) as H.
  destruct (lstrip s) as [|d u]; [discriminate|].
  destruct (rstrip_head d u H) as [t' ->]. intros E; inversion E; subst. exact H.
Qed.

Lemma strip_idempotent (s : string) : strip (strip s) = strip s.
Proof.
  destruct (strip s) as [|c t] eqn:E; [reflexivity|].
  pose proof (strip_head s c t E) as Hc.
  unfold strip at 1. cbn [lstrip]. rewrite Hc.
  rewrite <- E. unfold strip. apply rstrip_idempotent.
Qed.

Lemma rstrip_all_space (s : string) :
  rstrip s = EmptyString -> all_chars isspace s = true.
Proof.
  induction s as [|c s IH]; simpl; [reflexivity|].
  destruct (rstrip s); [|discriminate].
  destruct (isspace c); [intros _; now apply IH|discriminate].
Qed.

Lemma lstrip_all_space (s : string) :
  all_chars isspace (lstrip s) = true -> all_chars isspace s = true.
Proof.
  induction s as [|c s IH]; simpl; [reflexivity|].
  destruct (isspace c) eqn:E; [exact IH|]. simpl. now rewrite E.
Qed.

Lemma strip_empty (s : string) :
  strip s = EmptyString -> all_chars isspace s = true.
Proof. intros H. apply lstrip_all_space, rstrip_all_space, H. Qed.

Lemma all_chars_get (p : ascii -> bool) (s : string) :
  all_chars p s = true -> forall n c, String.get n s = Some c -> p c = true.
Proof.
  induction s as [|d s IH]; simpl; intros H n c G; [discriminate|].
  apply andb_prop in H as [Hd Hs].
  destruct n as [|n]; [inversion G; now subst|]. exact (IH Hs n c G).
Qed.

(** A line with a character that is no whitespace has a non-empty strip. *)
Lemma truthy_strip (s : string) (n : nat) (c : ascii) :
  String.get n s = Some c -> isspace c = false -> truthy (strip s) = true.
Proof.
  intros G Hc. destruct (strip s) eqn:E; [|reflexivity].
  rewrite (all_chars_get _ _ (strip_empty s E) n c G) in Hc. discriminate.
Qed.


End Strip.

(** X1: the boundary test answers true exactly for the lines that have a
    hyphen at index 2 and a hyphen at index 5; it raises exactly for the
    lines with a non-empty strip that end before index 2, or have a hyphen
    at index 2 and end before index 5, and what it raises is
    [IndexError]; for every other line it answers false. *)
Theorem starts_entry_cases (line : string) :
  (starts_entry line = Ok true <->
   String.get 2 line = Some "-"%char /\ String.get 5 line = Some "-"%char) /\
  (forall e,
      starts_entry line = Raise e <->
      e = IndexError /\ truthy (strip line) = true /\
      ((String.length line <= 2)%nat \/
       (String.get 2 line = Some "-"%char /\ (String.length line <= 5)%nat))).
Proof.
  assert (none : forall n, String.get n line = None -> (String.length line <= n)%nat).
  { intros n G. destruct (le_lt_dec (String.length line) n) as [L|L]; [exact L|].
    destruct (get_long line n L) as [c E]. congruence. }
  assert (some : forall n c, String.get n line = Some c -> (n < String.length line)%nat).
  { intros n c G. destruct (le_lt_dec (String.length line) n) as [L|L]; [|exact L].
    rewrite (get_short line n L) in G. discriminate. }
  unfold starts_entry, getitem. split.
  - split.
    + destruct (truthy (strip line)); [|discriminate].
      destruct (String.get 2 line) as [c2|] eqn:G2; cbn [bind]; [|discriminate].
      destruct (Ascii.eqb_spec c2 "-") as [->|]; [|discriminate].
      destruct (String.get 5 line) as [c5|] eqn:G5; cbn [bind]; [|discriminate].
      destruct (Ascii.eqb_spec c5 "-") as [->|]; [now split|discriminate].
    + intros [G2 G5].
      rewrite (truthy_strip line 2 "-" G2 eq_refl), G2, G5. reflexivity.
  - intros e. split.
    + destruct (truthy (strip line)); [|discriminate].
      destruct (String.get 2 line) as [c2|] eqn:G2; cbn [bind].
      * destruct (Ascii.eqb_spec c2 "-") as [->|]; [|discriminate].
        destruct (String.get 5 line) as [c5|] eqn:G5; cbn [bind]; [discriminate|].
        intros E; inversion E; subst. repeat split. right. split; [reflexivity|].
        now apply none.
      * intros E; inversion E; subst. repeat split. left. now apply none.
    + intros (-> & T & [L|[G2 L]]); rewrite T.
      * now rewrite (get_short line 2 L).
      * rewrite G2. cbn [bind]. now rewrite (get_short line 5 L).
Qed.

Section Accumulate.

Lemma flush_acc (lc lc1 : list RuntimeLogLine) (entry : list string) :
  flush (lc ++ lc1) entry = (r <- flush lc1 entry;; Ok (lc ++ r)%list).
Proof.
  unfold flush. destruct (RuntimeLogLine_init (strip (join " " entry))); cbn [bind];
    [now rewrite app_assoc|reflexivity].
Qed.

Lemma line_step_acc (lc lc1 : list RuntimeLogLine) (entry : list string) (line : string) :
  line_step ((lc ++ lc1)%list, entry) line
  = (st <- line_step (lc1, entry) line;; Ok ((lc ++ fst st)%list, snd st)).
Proof.
  unfold line_step. destruct (starts_entry line) as [b|]; cbn [bind]; [|reflexivity].
  destruct b; [destruct (nonempty entry)|]; cbn [bind fst snd]; try reflexivity.
  rewrite flush_acc. destruct (flush lc1 entry); reflexivity.
Qed.

Lemma for_lines_acc (file : list string) :
  forall lc lc1 entry,
    for_lines ((lc ++ lc1)%list, entry) file
    = (st <- for_lines (lc1, entry) file;; Ok ((lc ++ fst st)%list, snd st)).
Proof.
  induction file as [|line rest IH]; intros lc lc1 entry; [reflexivity|].
  cbn [for_lines]. rewrite line_step_acc.
  destruct (line_step (lc1, entry) line) as [[lc2 e2]|]; cbn [bind fst snd];
    [apply IH|reflexivity].
Qed.

(** Reading a file leaves the entries collected so far as they are and
    appends its own. *)
Lemma read_file_acc (lc lc1 : list RuntimeLogLine) (file : list string) :
  read_file (lc ++ lc1) file = (r <- read_file lc1 file;; Ok (lc ++ r)%list).
Proof.
  unfold read_file. rewrite for_lines_acc.
  destruct (for_lines (lc1, []) file) as [[lc2 e2]|]; cbn [bind fst snd];
    [|reflexivity].
  destruct (nonempty e2); [|reflexivity].
  rewrite flush_acc. destruct (flush lc2 e2); reflexivity.
Qed.

Lemma for_filenames_acc (dir : folder) :
  forall lc lc1,
    for_filenames (lc ++ lc1) dir
    = (r <- for_filenames lc1 dir;; Ok (lc ++ r)%list).
Proof.
  induction dir as [|[name file] dir IH]; intros lc lc1; [reflexivity|].
  cbn [for_filenames]. destruct (endswith name ".log"); [|apply IH].
  rewrite read_file_acc. destruct (read_file lc1 file); cbn [bind];
    [apply IH|reflexivity].
Qed.

End Accumulate.

(** X2: the files of a folder are read one after the other into one
    collection: reading a listing in two parts and appending the results
    gives what reading the whole listing gives, and an error in the first
    part is the error of the whole. *)
Theorem read_log_files_app (d1 d2 : folder) :
  read_log_files (d1 ++ d2)%list
  = (r1 <- read_log_files d1;; r2 <- read_log_files d2;; Ok (r1 ++ r2)%list).
Proof.
  unfold read_log_files. rewrite for_filenames_app.
  destruct (for_filenames [] d1) as [r1|]; cbn [bind]; [|reflexivity].
  rewrite <- (app_nil_r r1) at 1. apply for_filenames_acc.
Qed.

(** X3: a file whose name does not end in ".log" is never read: the
    collection, or the error, is that of the folder without it, whatever
    its lines are. *)
Theorem other_files_ignored (before_it after_it : folder)
        (filename : string) (file : list string) :
  endswith filename ".log" = false ->
  read_log_files (before_it ++ (filename, file) :: after_it)%list
  = read_log_files (before_it ++ after_it)%list.
Proof.
  intros H. unfold read_log_files. rewrite !for_filenames_app.
  destruct (for_filenames [] before_it); cbn [bind for_filenames]; [|reflexivity].
  now rewrite H.
Qed.

Lemma other_files_ignored_witness :
  read_log_files
    [("notes.txt", ["}" ++ nl]);
     ("run.LOG", ["x" ++ nl]);
     ("runtime.log", ["01-02-2023 10:00:00.000000;ERROR;Mod;Obj;oops;" ++ nl])]
  = read_log_files
      [("run.LOG", ["x" ++ nl]);
       ("runtime.log", ["01-02-2023 10:00:00.000000;ERROR;Mod;Obj;oops;" ++ nl])].
Proof.
  apply (other_files_ignored [] _ "notes.txt" ["}" ++ nl]). reflexivity.
Defined.

Section ReaderErrors.







End ReaderErrors.


Section Counting.

Lemma chunks_length (line : string) (rest : list string) :
  List.length (chunks (line :: rest)) = S (List.length (filter is_boundary rest)).
Proof.
  revert line; induction rest as [|next rest IH]; intros line; [reflexivity|].
  specialize (IH next).
  destruct (chunks_cons next rest) as (g & gs & E).
  change (chunks (line :: next :: rest)) with
    (match chunks (next :: rest) with
     | [] => [[line]]
     | g :: gs =>
         match g with
         | next :: _ => if is_boundary next then [line] :: g :: gs
                        else (line :: g) :: gs
         | [] => [line] :: gs
         end
     end).
  rewrite E in *. cbn [filter]. destruct (is_boundary next); simpl in *; lia.
Qed.

Lemma Forall2_length_eq {A B} (R : A -> B -> Prop) (l : list A) (l' : list B) :
  Forall2 R l l' -> List.length l = List.length l'.
Proof. induction 1; simpl; congruence. Qed.

End Counting.

(** X5: a file with lines that is read without error adds one entry for
    its first line and one more for every boundary line after the first:
    the collection grows by 1 plus the number of later boundary lines. *)
Theorem entries_per_file (log_contents : list RuntimeLogLine)
        (line : string) (rest : list string) (out : list RuntimeLogLine) :
  read_file log_contents (line :: rest) = Ok out ->
  List.length out
  = (List.length log_contents
     + 1 + List.length (filter (fun l => match starts_entry l with
                                         | Ok true => true
                                         | _ => false
                                         end) rest))%nat.
Proof.
  intros H. destruct (read_file_chunks _ _ _ H) as (es & -> & Hes).
  apply Forall2_length_eq in Hes. rewrite chunks_length in Hes.
  rewrite length_app, <- Hes. fold is_boundary. lia.
Qed.

Lemma entries_per_file_witness :
  List.length
    [mkRuntimeLogLine (mkdatetime 2023 2 1 10 0 0 0) 0 "oops";
     mkRuntimeLogLine (mkdatetime 2023 2 2 11 30 0 250000) 2 "next"]
  = (List.length (@nil RuntimeLogLine)
     + 1 + List.length (filter (fun l => match starts_entry l with
                                         | Ok true => true
                                         | _ => false
                                         end)
                               ["   at line 7" ++ nl;
                                "02-02-2023 11:30:00.250000;info;M;O;next;" ++ nl]))%nat.
Proof.
  apply (entries_per_file []
           ("01-02-2023 10:00:00.000000;ERROR;M;O;oops;" ++ nl)
           ["   at line 7" ++ nl;
            "02-02-2023 11:30:00.250000;info;M;O;next;" ++ nl]).
  vm_compute; reflexivity.
Defined.

Section PerLine.

Lemma chunks_all_boundary (file : list string) :
  Forall (fun l => starts_entry l = Ok true) file ->
  chunks file = map (fun l => [l]) file.
Proof.
  induction 1 as [|line rest Hl Hr IH]; [reflexivity|].
  cbn [chunks map]. rewrite IH. destruct Hr as [|next rest' Hn Hr']; [reflexivity|].
  cbn [map]. unfold is_boundary. now rewrite Hn.
Qed.

Lemma raw_text_single (line : string) : raw_text [line] = strip line.
Proof. unfold raw_text. cbn [map join]. apply strip_idempotent. Qed.


End PerLine.

(** X6: in a file where every line is a boundary line, every line is an
    entry of its own: the entries appended are, in order, the parses of
    the stripped lines. *)
Theorem one_entry_per_line (log_contents : list RuntimeLogLine) (file : list string) :
  Forall (fun l => starts_entry l = Ok true) file ->
  exists entries,
    read_file log_contents file = Ok (log_contents ++ entries)%list /\
    Forall2 (fun l e => RuntimeLogLine_init (strip l) = Ok e) file entries.
Proof.
  intros H.
  destruct (read_file_returns log_contents file) as [out R].
  { eapply Forall_impl; [|exact H]. intros l Hl. exists true. exact Hl. }
  destruct (read_file_chunks _ _ _ R) as (es & -> & Hes).
  exists es. split; [exact R|].
  rewrite (chunks_all_boundary file H) in Hes. clear R H.
  revert es Hes. induction file as [|l file IH]; intros es Hes; inversion Hes; subst;
    constructor.
  - now rewrite <- raw_text_single.
  - now apply IH.
Qed.

Lemma one_entry_per_line_witness :
  exists entries,
    read_file []
      ["01-02-2023 10:00:00.000000;ERROR;M;O;oops;" ++ nl;
       "02-02-2023 11:30:00.250000;info;M;O;next;" ++ nl]
    = Ok ([] ++ entries)%list /\
    Forall2 (fun l e => RuntimeLogLine_init (strip l) = Ok e)
      ["01-02-2023 10:00:00.000000;ERROR;M;O;oops;" ++ nl;
       "02-02-2023 11:30:00.250000;info;M;O;next;" ++ nl]
      entries.
Proof.
  apply (one_entry_per_line []). repeat constructor.
Defined.

Section Fields.

(** An entry of five semicolon-free fields and a trailing text is parsed
    from its timestamp, level and message fields alone. *)
Lemma parse_five_fields (ts lvl mo ob msg rest : string) :
  sepfree ";" ts = true -> sepfree ";" lvl = true -> sepfree ";" mo = true ->
  sepfree ";" ob = true -> sepfree ";" msg = true ->
  parse_log_line
    (ts ++ ";" ++ lvl ++ ";" ++ mo ++ ";" ++ ob ++ ";" ++ msg ++ ";" ++ rest)
  = match read_timestamp ts, read_level lvl with
    | Ok t, Ok i => Ok (t, i, normalized msg)
    | _, _ => Ok sentinel
    end.
Proof.
  intros H1 H2 H3 H4 H5.
  exact (parse_log_line_fields _ _ _ _ _ _ _ (split_six _ _ _ _ _ rest H1 H2 H3 H4 H5)).
Qed.




End Fields.



(** X8: the module field, the object field and the text after the fifth
    semicolon have no part in the result: two entries with the same
    timestamp, level and message fields are parsed to the same triple. *)
Theorem unused_fields_ignored (ts lvl msg mo ob rest mo' ob' rest' : string) :
  sepfree ";" ts = true -> sepfree ";" lvl = true -> sepfree ";" msg = true ->
  sepfree ";" mo = true -> sepfree ";" ob = true ->
  sepfree ";" mo' = true -> sepfree ";" ob' = true ->
  parse_log_line
    (ts ++ ";" ++ lvl ++ ";" ++ mo ++ ";" ++ ob ++ ";" ++ msg ++ ";" ++ rest)
  = parse_log_line
      (ts ++ ";" ++ lvl ++ ";" ++ mo' ++ ";" ++ ob' ++ ";" ++ msg ++ ";" ++ rest').
Proof.
  intros H1 H2 H5 H3 H4 H3' H4'. now rewrite !parse_five_fields.
Qed.

Lemma unused_fields_ignored_witness :
  parse_log_line
    ("01-02-2023 10:00:00.000000" ++ ";" ++ "ERROR" ++ ";" ++ "NetLogic" ++ ";"
     ++ "Motor1" ++ ";" ++ "oops" ++ ";" ++ "a;b")
  = parse_log_line
      ("01-02-2023 10:00:00.000000" ++ ";" ++ "ERROR" ++ ";" ++ "" ++ ";"
       ++ "" ++ ";" ++ "oops" ++ ";" ++ "").
Proof. apply unused_fields_ignored; reflexivity. Defined.

Section Normalized.

Lemma sepfree_before (c : ascii) (x : string) : sepfree c (before c x) = true.
Proof.
  induction x as [|d x IH]; simpl; [reflexivity|].
  destruct (Ascii.eqb d c) eqn:E; [reflexivity|]. simpl. now rewrite E.
Qed.

Lemma sepfree_before_other (s c : ascii) (x : string) :
  sepfree s x = true -> sepfree s (before c x) = true.
Proof.
  induction x as [|d x IH]; simpl; [reflexivity|]. intros H.
  apply andb_prop in H as [Hd Hx].
  destruct (Ascii.eqb d c); [reflexivity|]. simpl. now rewrite Hd, IH.
Qed.

Lemma before_app (c : ascii) (p r : string) :
  sepfree c p = true -> before c (p ++ r) = p ++ before c r.
Proof.
  induction p as [|d p IH]; simpl; [reflexivity|]. intros H.
  apply andb_prop in H as [Hd Hp]. apply negb_true_iff in Hd.
  now rewrite Hd, IH.
Qed.

Lemma startswith_before (msg p : string) :
  sepfree ":" p = true -> startswith msg p = true ->
  startswith (before ":" msg) p = true.
Proof.
  intros Hp H. apply startswith_iff in H as [r ->].
  rewrite (before_app _ _ _ Hp). apply startswith_iff. eauto.
Qed.

Lemma protected_before (msg : string) :
  protected msg = true -> protected (before ":" msg) = true.
Proof.
  unfold protected. intros H.
  apply orb_prop in H as [H|H]; [apply orb_prop in H as [H|H]|];
    apply startswith_before in H; try reflexivity; rewrite H;
    rewrite ?orb_true_r; reflexivity.
Qed.

Lemma normalized_idempotent (msg : string) :
  normalized (normalized msg) = normalized msg.
Proof.
  unfold normalized at 2 3. destruct (protected msg) eqn:P.
  - unfold normalized. rewrite (protected_before _ P).
    apply before_sepfree, sepfree_before.
  - unfold normalized. now rewrite P.
Qed.

Lemma sepfree_normalized (s : ascii) (msg : string) :
  sepfree s msg = true -> sepfree s (normalized msg) = true.
Proof.
  intros H. unfold normalized.
  destruct (protected msg); [now apply sepfree_before_other|exact H].
Qed.

End Normalized.

(** X9: the message of a parsed entry is already in its final form: put
    back into the entry in place of the original message, it is parsed
    to the same triple; and when it begins with one of the three
    protected prefixes it holds no colon. *)
Theorem reparse_stable (ts lvl mo ob msg rest : string) (t : datetime) (l : Z)
        (m : string) :
  sepfree ";" ts = true -> sepfree ";" lvl = true -> sepfree ";" mo = true ->
  sepfree ";" ob = true -> sepfree ";" msg = true ->
  parse_log_line
    (ts ++ ";" ++ lvl ++ ";" ++ mo ++ ";" ++ ob ++ ";" ++ msg ++ ";" ++ rest)
  = Ok (t, l, m) ->
  l <> -1 ->
  parse_log_line
    (ts ++ ";" ++ lvl ++ ";" ++ mo ++ ";" ++ ob ++ ";" ++ m ++ ";" ++ rest)
  = Ok (t, l, m) /\
  (startswith m "Error invoking " || startswith m "Error executing "
   || startswith m "Error running " = true ->
   sepfree ":" m = true).
Proof.
  intros H1 H2 H3 H4 H5 P Hl.
  rewrite parse_five_fields in P by assumption.
  destruct (read_timestamp ts) as [t'|] eqn:Et;
    [|inversion P; subst; congruence].
  destruct (read_level lvl) as [i|] eqn:Ei;
    [|inversion P; subst; congruence].
  inversion P; subst. split.
  - rewrite parse_five_fields by (try assumption; now apply sepfree_normalized).
    now rewrite Et, Ei, normalized_idempotent.
  - intros Hp. fold (protected (normalized msg)) in Hp.
    rewrite <- normalized_idempotent. unfold normalized at 1. rewrite Hp.
    apply sepfree_before.
Qed.

Lemma reparse_stable_witness :
  parse_log_line
    ("01-02-2023 10:00:00.000000" ++ ";" ++ "ERROR" ++ ";" ++ "Mod" ++ ";"
     ++ "Obj" ++ ";" ++ "Error running job 7" ++ ";" ++ "tail")
  = Ok (mkdatetime 2023 2 1 10 0 0 0, 0, "Error running job 7") /\
  (startswith "Error running job 7" "Error invoking "
   || startswith "Error running job 7" "Error executing "
   || startswith "Error running job 7" "Error running " = true ->
   sepfree ":" "Error running job 7" = true).
Proof.
  apply (reparse_stable "01-02-2023 10:00:00.000000" "ERROR" "Mod" "Obj"
           "Error running job 7: timeout: retry" "tail");
    try reflexivity.
  discriminate.
Defined.

(* ================================================================== *)
(** ** The collection and the printing loop *)

Section Collection.

Lemma new_valid (y m d H M S f : Z) (t : datetime) :
  new y m d H M S f = Ok t -> valid_time t.
Proof.
  intros E. assert (Et : t = mkdatetime y m d H M S f).
  { unfold new in E.
    match type of E with (if ?b then _ else _) = _ => destruct b end;
      [now inversion E|discriminate]. }
  subst t. exact E.
Qed.

Lemma init_invariant (log_line : string) (e : RuntimeLogLine) :
  RuntimeLogLine_init log_line = Ok e ->
  valid_time (timestamp e) /\ (e = invalid_entry \/ 0 <= level e <= 5).
Proof.
  unfold RuntimeLogLine_init. intros H.
  assert (inv : valid_time (timestamp invalid_entry) /\
                (invalid_entry = invalid_entry \/ 0 <= level invalid_entry <= 5))
    by (split; [reflexivity|now left]).
  destruct (Nat.eq_dec (List.length (fields log_line)) 6) as [E|NE].
  - destruct (six_parts _ E) as (ts & lvl & mo & ob & msg & un & F).
    rewrite (parse_log_line_fields _ _ _ _ _ _ _ F) in H.
    destruct (read_timestamp ts) as [t|] eqn:Et;
      [|cbn in H; inversion H; subst; exact inv].
    destruct (read_level lvl) as [i|] eqn:Ei;
      [|cbn in H; inversion H; subst; exact inv].
    cbn in H. inversion H; subst. cbn [timestamp level]. split.
    + destruct (strptime_sound _ _ Et) as (d & m & y & w & HH & M & S & f & _ & _ & _
                                           & _ & _ & _ & _ & _ & _ & Hnew).
      exact (new_valid _ _ _ _ _ _ _ _ Hnew).
    + right. destruct (index_nth _ _ _ Ei) as [Hi _]. simpl in Hi. lia.
  - rewrite (parse_log_line_unpack _ NE) in H. cbn in H. inversion H; subst. exact inv.
Qed.

Lemma read_file_invariant (P : RuntimeLogLine -> Prop) (lc : list RuntimeLogLine)
      (file : list string) (out : list RuntimeLogLine) :
  (forall s e, RuntimeLogLine_init s = Ok e -> P e) ->
  Forall P lc -> read_file lc file = Ok out -> Forall P out.
Proof.
  intros HP Hlc R. destruct (read_file_chunks _ _ _ R) as (es & -> & Hes).
  apply Forall_app. split; [exact Hlc|]. clear R.
  induction Hes as [|g e gs es He _ IH]; [constructor|].
  constructor; [exact (HP _ _ He)|exact IH].
Qed.

Lemma for_filenames_invariant (P : RuntimeLogLine -> Prop) (dir : folder) :
  (forall s e, RuntimeLogLine_init s = Ok e -> P e) ->
  forall lc out, Forall P lc -> for_filenames lc dir = Ok out -> Forall P out.
Proof.
  intros HP. induction dir as [|[name file] dir IH]; intros lc out Hlc R;
    cbn [for_filenames] in R; [now inversion R; subst|].
  destruct (endswith name ".log"); [|exact (IH _ _ Hlc R)].
  destruct (read_file lc file) as [lc'|] eqn:RF; [|discriminate]. cbn [bind] in R.
  exact (IH _ _ (read_file_invariant P _ _ _ HP Hlc RF) R).
Qed.

End Collection.

(** X10: every entry of the collection [read_log_files] returns has a
    timestamp that is a valid date and time of day, and either is the
    sentinel entry (minimum timestamp, level -1, "Invalid log line
    format") or has a level from 0 to 5: there is no entry with a level
    of -1 and another message or timestamp, and none with a level outside
    the vocabulary. *)
Theorem collection_invariant (logs_folder : folder) (out : list RuntimeLogLine) :
  read_log_files logs_folder = Ok out ->
  Forall (fun e =>
            new (year (timestamp e)) (month (timestamp e)) (day (timestamp e))
                (hour (timestamp e)) (minute (timestamp e)) (second (timestamp e))
                (microsecond (timestamp e))
            = Ok (timestamp e) /\
            (e = mkRuntimeLogLine Datetime.min (-1) "Invalid log line format"
             \/ 0 <= level e <= 5)) out.
Proof.
  intros R.
  apply (for_filenames_invariant
           (fun e => valid_time (timestamp e) /\ (e = invalid_entry \/ 0 <= level e <= 5))
           logs_folder init_invariant [] out); [constructor|exact R].
Qed.

Lemma collection_invariant_witness :
  Forall (fun e =>
            new (year (timestamp e)) (month (timestamp e)) (day (timestamp e))
                (hour (timestamp e)) (minute (timestamp e)) (second (timestamp e))
                (microsecond (timestamp e))
            = Ok (timestamp e) /\
            (e = mkRuntimeLogLine Datetime.min (-1) "Invalid log line format"
             \/ 0 <= level e <= 5))
         [mkRuntimeLogLine (mkdatetime 2023 2 1 10 0 0 0) 0 "oops";
          mkRuntimeLogLine Datetime.min (-1) "Invalid log line format"].
Proof.
  apply (collection_invariant
           [("runtime.log",
             ["01-02-2023 10:00:00.000000;ERROR;Mod;Obj;oops;" ++ nl;
              "31-02-2023 10:00:00.000000;ERROR;Mod;Obj;no such day;" ++ nl])]).
  vm_compute; reflexivity.
Defined.

Section Printing.

Lemma print_content_shown (content : RuntimeLogLine) :
  print_content content
  = Ok (if shown content then Some (console_text content) else None).
Proof.
  unfold print_content, shown, console_text.
  change (index LOG_LEVELS "WARNING") with (@Ok Z 1). cbn [bind].
  rewrite Z.geb_leb, andb_comm.
  destruct (Z.leb_spec 0 (level content)) as [H0|H0]; [|reflexivity].
  destruct (Z.leb_spec (level content) 1) as [H1|H1]; [|reflexivity].
  cbn [andb].
  assert (E : level content = 0 \/ level content = 1) by lia.
  destruct E as [E|E]; rewrite E; reflexivity.
Qed.

Lemma for_contents_shown (log_contents : list RuntimeLogLine) :
  for_contents log_contents = Ok (map console_text (filter shown log_contents)).
Proof.
  induction log_contents as [|content rest IH]; [reflexivity|].
  cbn [for_contents filter]. rewrite print_content_shown, IH. cbn [bind].
  now destruct (shown content).
Qed.

End Printing.

(** X11: the lines [__main__] prints are, in the order of the sorted
    collection, the console lines of the entries with level 0 or 1 and of
    no other entry: sentinel entries and entries from INFO to VERBOSE2
    are never printed, and the printing loop raises nothing -- an error of
    [__main__] is an error of [read_log_files]. *)
Theorem main_lines (Logs : folder) :
  main Logs
  = (log_contents <- read_log_files Logs;;
     Ok (map (fun content =>
                strftime (timestamp content) "%d-%m-%Y %H:%M:%S"
                ++ "; " ++ ljust (nth (Z.to_nat (level content)) LOG_LEVELS "") 10
                ++ "; " ++ message content)
             (filter (fun content => (0 <=? level content) && (level content <=? 1))
                     (sort_by_timestamp log_contents)))).
Proof.
  unfold main. destruct (read_log_files Logs) as [lc|]; cbn [bind]; [|reflexivity].
  apply for_contents_shown.
Qed.

Section Sorting.

Lemma ltb_lexb (a b : datetime) : Datetime.ltb a b = lexb (time_key a) (time_key b).
Proof. reflexivity. Qed.

Lemma lexb_asym (x : list Z) : forall y, lexb x y = true -> lexb y x = false.
Proof.
  induction x as [|u x IH]; intros [|v y]; simpl; try discriminate; try reflexivity.
  intros H. specialize (IH y).
  destruct (Z.ltb_spec u v), (Z.eqb_spec u v), (Z.ltb_spec v u), (Z.eqb_spec v u);
    simpl in *; try lia; try reflexivity; try discriminate; auto.
Qed.

(** [x <= y] and [y <= z] give [x <= z], for keys of one length. *)
Lemma lexb_trans (x : list Z) :
  forall y z,
    List.length x = List.length y -> List.length y = List.length z ->
    lexb y x = false -> lexb z y = false -> lexb z x = false.
Proof.
  induction x as [|u x IH]; intros [|v y] [|w z]; simpl; try discriminate;
    try reflexivity.
  intros L1 L2 H1 H2. specialize (IH y z).
  destruct (Z.ltb_spec v u), (Z.eqb_spec v u), (Z.ltb_spec w v), (Z.eqb_spec w v),
    (Z.ltb_spec w u), (Z.eqb_spec w u);
    simpl in *; try lia; try reflexivity; try discriminate.
  apply IH; congruence.
Qed.

Lemma ltb_asym (a b : datetime) :
  Datetime.ltb a b = true -> Datetime.ltb b a = false.
Proof. rewrite !ltb_lexb. apply lexb_asym. Qed.

Lemma ltb_trans (a b c : datetime) :
  Datetime.ltb b a = false -> Datetime.ltb c b = false -> Datetime.ltb c a = false.
Proof. rewrite !ltb_lexb. now apply lexb_trans. Qed.

Lemma not_after_trans (a b c : RuntimeLogLine) :
  not_after a b -> not_after b c -> not_after a c.
Proof. unfold not_after. apply ltb_trans. Qed.

Lemma insert_perm (x : RuntimeLogLine) (l : list RuntimeLogLine) :
  Permutation (x :: l) (insert_by_timestamp x l).
Proof.
  induction l as [|y l IH]; simpl; [constructor; constructor|].
  destruct (Datetime.ltb (timestamp x) (timestamp y)); [apply Permutation_refl|].
  apply perm_trans with (y :: x :: l); [constructor|now constructor].
Qed.

Lemma insert_sorted (x : RuntimeLogLine) (l : list RuntimeLogLine) :
  StronglySorted not_after l -> StronglySorted not_after (insert_by_timestamp x l).
Proof.
  induction 1 as [|y l Hl IH Hy]; simpl; [repeat constructor|].
  destruct (Datetime.ltb (timestamp x) (timestamp y)) eqn:E.
  - assert (Hxy : not_after x y) by (apply ltb_asym; exact E).
    constructor; [now constructor|]. constructor; [exact Hxy|].
    eapply Forall_impl; [|exact Hy]. intros z Hz. exact (not_after_trans _ _ _ Hxy Hz).
  - constructor; [exact IH|].
    apply (Permutation_Forall (insert_perm x l)). constructor; [exact E|exact Hy].
Qed.

Lemma sort_snoc (l : list RuntimeLogLine) (x : RuntimeLogLine) :
  sort_by_timestamp (l ++ [x]) = insert_by_timestamp x (sort_by_timestamp l).
Proof. unfold sort_by_timestamp. now rewrite fold_left_app. Qed.

Lemma sort_sorted (l : list RuntimeLogLine) :
  StronglySorted not_after (sort_by_timestamp l).
Proof.
  induction l as [|x l IH] using rev_ind; [constructor|].
  rewrite sort_snoc. now apply insert_sorted.
Qed.

Lemma sort_perm (l : list RuntimeLogLine) : Permutation l (sort_by_timestamp l).
Proof.
  induction l as [|x l IH] using rev_ind; [constructor|].
  rewrite sort_snoc. apply perm_trans with (x :: l).
  - apply Permutation_sym, Permutation_cons_append.
  - apply perm_trans with (x :: sort_by_timestamp l); [now constructor|].
    apply insert_perm.
Qed.

(** Inserting into a sorted list puts the entry after the entries of its
    own timestamp. *)
Lemma filter_insert (t : datetime) (x : RuntimeLogLine) (l : list RuntimeLogLine) :
  StronglySorted not_after l ->
  filter (same_time t) (insert_by_timestamp x l)
  = (filter (same_time t) l ++ (if same_time t x then [x] else []))%list.
Proof.
  induction 1 as [|y l Hl IH Hy]; simpl; [now destruct (same_time t x)|].
  destruct (Datetime.ltb (timestamp x) (timestamp y)) eqn:E.
  - cbn [filter]. destruct (same_time t x) eqn:Sx; [|now rewrite app_nil_r].
    assert (later : forall z, not_after y z -> same_time t z = false).
    { intros z Hz. destruct (same_time t z) eqn:Sz; [|reflexivity].
      unfold same_time in Sx, Sz.
      apply andb_prop in Sx as [_ Sx]. apply andb_prop in Sz as [Sz _].
      apply negb_true_iff in Sx, Sz.
      pose proof (ltb_trans _ _ _ Hz Sz) as H1.
      pose proof (ltb_trans _ _ _ H1 Sx) as H2. congruence. }
    assert (Hyy : not_after y y).
    { unfold not_after. destruct (Datetime.ltb (timestamp y) (timestamp y)) eqn:A;
        [|reflexivity]. pose proof (ltb_asym _ _ A). congruence. }
    rewrite (later y Hyy).
    assert (F : filter (same_time t) l = []).
    { clear IH Hl. induction Hy as [|z l Hz _ IHl]; [reflexivity|].
      cbn [filter]. now rewrite (later z Hz). }
    now rewrite F.
  - cbn [filter]. rewrite IH. now destruct (same_time t y).
Qed.

End Sorting.

(** X12: the sort of [__main__] keeps every entry of the collection, each
    as often as it occurs, and puts the entries in an order in which no
    entry is later than an entry that follows it; entries with the
    sentinel's minimum timestamp therefore come first. *)
Theorem sort_by_timestamp_sorted (log_contents : list RuntimeLogLine) :
  Permutation log_contents (sort_by_timestamp log_contents) /\
  StronglySorted
    (fun a b => Datetime.ltb (timestamp b) (timestamp a) = false)
    (sort_by_timestamp log_contents).
Proof. split; [apply sort_perm|apply sort_sorted]. Qed.

(** X13: the sort is stable: the entries that share a timestamp -- among
    them all the sentinel entries -- stay in the order in which they were
    read. *)
Theorem sort_by_timestamp_stable (log_contents : list RuntimeLogLine) (t : datetime) :
  filter (fun e => negb (Datetime.ltb t (timestamp e))
                   && negb (Datetime.ltb (timestamp e) t))
         (sort_by_timestamp log_contents)
  = filter (fun e => negb (Datetime.ltb t (timestamp e))
                     && negb (Datetime.ltb (timestamp e) t))
           log_contents.
Proof.
  fold (same_time t).
  induction log_contents as [|x l IH] using rev_ind; [reflexivity|].
  rewrite sort_snoc, (filter_insert t x _ (sort_sorted l)), IH, filter_app.
  reflexivity.
Qed.

(** X14: a text with fewer than five semicolons is always resolved to the
    sentinel, whatever its timestamp and level fields are: the unpacking
    needs six parts.  So it is for an entry line without its fifth
    semicolon that was merged with a continuation line. *)
Theorem too_few_semicolons (log_line : string) :
  (count ";" log_line < 5)%nat -> parse_log_line log_line = Ok sentinel.
Proof.
  intros H. apply parse_log_line_unpack. unfold fields. rewrite split_length. lia.
Qed.

Lemma too_few_semicolons_witness :
  parse_log_line "01-02-2023 10:00:00.000000;ERROR;M;O;oops more detail"
  = Ok sentinel.
Proof. apply too_few_semicolons. simpl. lia. Defined.
